(** * clox: the bytecode instruction format, the chunk and the virtual machine

    A shallow embedding of [clox.cpp].  Each C++ class is a module; member
    functions take the object as their last argument and return the new
    object where the C++ mutates [*this].

    Integers of a fixed width are [Z] with the wrap-around written out,
    [size_t] offsets into vectors are [nat], [double] is the primitive
    binary64 [float], [std::vector] is [list] in storage order (so the top of
    the operand stack is the last element).  *)

From Stdlib Require Import ZArith Floats Ascii String.
From stdpp Require Import base list strings.

Local Open Scope Z_scope.

(** ** Ways a call can end *)

(** [std::vector::at] throws [std::out_of_range]; nothing in the program
    catches it. *)
Inductive exception := out_of_range.

(** A call either returns, or ends the process through the [FAIL] macro
    (diagnostic on [std::cerr], then [exit(1)]), or throws, or runs into
    behaviour the C++ standard leaves undefined. *)
Inductive outcome (A : Type) :=
| Returned (a : A)
| Failed (msg : string)
| Thrown (e : exception)
| Undefined.
Arguments Returned {A} a.
Arguments Failed {A} msg.
Arguments Thrown {A} e.
Arguments Undefined {A}.

Definition FAIL {A} (msg : string) : outcome A := Failed msg.

#[global] Instance outcome_ret : MRet outcome := fun _ a => Returned a.
#[global] Instance outcome_bind : MBind outcome := fun _ _ k m =>
  match m with
  | Returned a => k a
  | Failed msg => Failed msg
  | Thrown e => Thrown e
  | Undefined => Undefined
  end.

(** [v.at(n)] *)
Definition at_ {A} (v : list A) (n : nat) : outcome A :=
  match v !! n with
  | Some x => Returned x
  | None => Thrown out_of_range
  end.

(** The error kinds of the specification, and the one (if any) a call
    signals: every [FAIL] of the program reports an invalid opcode, and the
    only exception is the range error of [at]. *)
Inductive condition := InvalidOpcode | IndexOutOfRange | StackUnderflow.

Definition signals {A} (o : outcome A) : option condition :=
  match o with
  | Returned _ => None
  | Failed _ => Some InvalidOpcode
  | Thrown out_of_range => Some IndexOutOfRange
  | Undefined => None
  end.

(** ** Fixed-width integers *)

Definition wrap32 (x : Z) : Z := x mod 2 ^ 32.
(** what a 24-bit bit-field keeps of a value stored into it *)
Definition wrap24 (x : Z) : Z := x mod 2 ^ 24.

(** ** class Instruction *)

Module Instruction.

(** [enum class Opcode : uint8_t]; the enumerators are numbered from 0. *)
Inductive Opcode :=
| Return | Constant | Add | Subtract | Multiply | Divide | Negate | _Count.

#[global] Instance Opcode_eq_dec : EqDecision Opcode.
Proof. solve_decision. Defined.

(** [static_cast<uint8_t>(opcode)] *)
Definition tag (opcode : Opcode) : Z :=
  match opcode with
  | Return => 0 | Constant => 1 | Add => 2 | Subtract => 3
  | Multiply => 4 | Divide => 5 | Negate => 6 | _Count => 7
  end.

(** [static_cast<Opcode>(b)] for a byte [b].  The enumeration has a fixed
    underlying type, so the cast is defined for all 256 bytes, but only
    eight of them name an enumerator; [None] stands for the other 248
    values, which no [case] label of any [switch] matches. *)
Definition static_cast_Opcode (b : Z) : option Opcode :=
  match b with
  | 0 => Some Return | 1 => Some Constant | 2 => Some Add
  | 3 => Some Subtract | 4 => Some Multiply | 5 => Some Divide
  | 6 => Some Negate | 7 => Some _Count
  | _ => None
  end.

(** The members.  [index_] is the bit-field [uint index_ : 24]; it is
    [None] while uninitialised, which is how the two-argument constructor
    leaves it. *)
Record t := mk {
  line_ : Z;
  opcode_ : Opcode;
  index_ : option Z;
}.

(** [Instruction(line, opcode)] *)
Definition new (line : Z) (opcode : Opcode) : t :=
  {| line_ := line; opcode_ := opcode; index_ := None |}.

(** [Instruction(line, opcode, index)]: the 24-bit field keeps the low 24
    bits of [index]. *)
Definition new_indexed (line : Z) (opcode : Opcode) (index : Z) : t :=
  {| line_ := line; opcode_ := opcode; index_ := Some (wrap24 index) |}.

Definition get_line (i : t) : Z := line_ i.
Definition get_opcode (i : t) : Opcode := opcode_ i.

(** Reading the field while it is uninitialised is undefined. *)
Definition get_constant_index (i : t) : outcome nat :=
  match index_ i with
  | Some index => Returned (Z.to_nat index)
  | None => Undefined
  end.

(** [deserialize(line, bytes)].  When the low byte names no enumerator
    control leaves the [switch] and reaches the end of the function
    without a [return]. *)
Definition deserialize (line : Z) (bytes : Z) : outcome t :=
  match static_cast_Opcode (Z.land bytes 0xff) with
  | Some ((Return | Add | Subtract | Multiply | Divide | Negate) as opcode) =>
      Returned (new line opcode)
  | Some Constant =>
      let index := Z.shiftr bytes 8 in
      Returned (new_indexed line Constant index)
  | Some _Count => FAIL "invalid opcode '_COUNT'"
  | None => Undefined
  end.

(** [serialize()].  [index_ << 8] is computed at 32 bits; the shifted
    value is or-ed into the word modulo [2 ^ 32]. *)
Definition serialize (i : t) : outcome (Z * Z) :=
  let bytecode := tag (opcode_ i) in
  match opcode_ i with
  | Return | Add | Subtract | Multiply | Divide | Negate =>
      Returned (line_ i, bytecode)
  | Constant =>
      match index_ i with
      | Some index =>
          Returned (line_ i, Z.lor bytecode (wrap32 (Z.shiftl index 8)))
      | None => Undefined
      end
  | _Count => FAIL "invalid opcode '_COUNT'"
  end.

(** The seven operations; [_Count] only bounds the enumeration. *)
Definition known (opcode : Opcode) : Prop := opcode <> _Count.

(** Equality of instructions as the specification reads it: same opcode,
    same line and, for [Constant], the same operand. *)
Definition same (a b : t) : Prop :=
  get_opcode a = get_opcode b /\ get_line a = get_line b /\
  (get_opcode a = Constant ->
   exists index, index_ a = Some index /\ index_ b = Some index).

(** What a producer may hand to a chunk: one of the seven operations, and
    an operand (which the 24-bit field holds) if the operation is
    [Constant]. *)
Definition well_formed (i : t) : Prop :=
  known (opcode_ i) /\
  (opcode_ i = Constant ->
   exists index, index_ i = Some index /\ 0 <= index < 2 ^ 24).

End Instruction.

(** [to_string(opcode)] *)
Definition to_string (opcode : Instruction.Opcode) : outcome string :=
  match opcode with
  | Instruction.Return => Returned "RETURN"
  | Instruction.Constant => Returned "CONSTANT"
  | Instruction.Add => Returned "ADD"
  | Instruction.Subtract => Returned "SUBTRACT"
  | Instruction.Multiply => Returned "MULTIPLY"
  | Instruction.Divide => Returned "DIVIDE"
  | Instruction.Negate => Returned "NEGATE"
  | Instruction._Count => FAIL "invalid opcode"
  end.

(** ** Output streams and [std::format] *)

(** What has been written to a [std::ostream], oldest first.  Integers and
    strings are written as their text.  A written [double] is kept as the
    value itself, either as [operator<<] writes it ([Num]; its characters
    are [ostream_double] below) or as [std::format] renders it
    right-aligned in a field ([NumField width value], for ["{:>width}"]).
    [Endl] is [std::endl]: a line terminator and a flush. *)
Inductive item :=
| Str (s : string)
| Num (value : float)
| NumField (width : nat) (value : float)
| Endl.

Definition ostream := list item.

Notation "out << x" := (out ++ [x]) (at level 50, left associativity).

Definition digit (d : N) : ascii :=
  ascii_of_N (d + 48).

(** the digits of [n] in [base], most significant first, before [acc] *)
Fixpoint digits_go (fuel : nat) (base n : N) (acc : string) : string :=
  match fuel with
  | O => acc
  | S fuel =>
      let acc := String (digit (n mod base)) acc in
      if (n / base =? 0)%N then acc else digits_go fuel base (n / base) acc
  end.

Definition digits (base n : N) : string :=
  digits_go (S (N.size_nat n)) base n "".

Fixpoint fill (c : ascii) (n : nat) : string :=
  match n with
  | O => ""
  | S n => String c (fill c n)
  end.

(** ["{:c>width}"] applied to text: right-aligned, padded with [c], never
    cut. *)
Definition align_right (c : ascii) (width : nat) (s : string) : string :=
  (fill c (width - String.length s) +:+ s)%string.

(** ["{:0>width}"] and ["{:>width}"] for an unsigned integer, and
    ["{:0>widthb}"] *)
Definition format_zero_dec (width : nat) (n : Z) : string :=
  align_right "0" width (digits 10 (Z.to_N n)).
Definition format_dec (width : nat) (n : Z) : string :=
  align_right " " width (digits 10 (Z.to_N n)).
Definition format_zero_bin (width : nat) (n : Z) : string :=
  align_right "0" width (digits 2 (Z.to_N n)).

(** ** [operator<<] for a [double] *)

(** The characters [out << value] puts on a stream in its default state
    (no [fixed], no [scientific], precision 6), which are those of
    [printf("%g", value)]: the value is rounded to 6 significant digits (to
    nearest, ties to even, on the exact binary value); with [x] the decimal
    exponent of the rounded value, it is written in fixed notation when
    [-4 <= x < 6] and as [d.ddddde+xx] otherwise, and in both trailing zeros
    of the fraction, and a decimal point left bare, are dropped.  The sign of
    a NaN is the platform's and is not modelled. *)

(** the exact value [m * 2 ^ e] as numerator and denominator *)
Definition fraction (m : positive) (e : Z) : Z * Z :=
  if 0 <=? e then (Z.pos m * 2 ^ e, 1) else (Z.pos m, 2 ^ (- e)).

(** [q / 10 ^ x] *)
Definition scaled (q : Z * Z) (x : Z) : Z * Z :=
  let '(num, den) := q in
  if 0 <=? x then (num, den * 10 ^ x) else (num * 10 ^ (- x), den).

(** the largest exponent, from [x] downwards, with [10 ^ x <= q] *)
Fixpoint decimal_exponent (fuel : nat) (q : Z * Z) (x : Z) : Z :=
  match fuel with
  | O => x
  | S fuel =>
      let '(num, den) := scaled q x in
      if den <=? num then x else decimal_exponent fuel q (x - 1)
  end.

Definition round_half_even (q : Z * Z) : Z :=
  let '(num, den) := q in
  let d := num / den in
  match 2 * (num mod den) ?= den with
  | Lt => d
  | Gt => d + 1
  | Eq => if Z.even d then d else d + 1
  end.

(** [q] rounded to [precision] significant digits: the digits as a number
    and the decimal exponent of the first one.  A double is below
    [10 ^ 309] and, if positive, at least [10 ^ -324]. *)
Definition significant (precision : Z) (q : Z * Z) : Z * Z :=
  let x := decimal_exponent 640 q 308 in
  let d := round_half_even (scaled q (x - (precision - 1))) in
  if d =? 10 ^ precision then (10 ^ (precision - 1), x + 1) else (d, x).

Fixpoint strip_zeros (s : string) : string :=
  match s with
  | EmptyString => EmptyString
  | String c rest =>
      match strip_zeros rest with
      | EmptyString =>
          if Ascii.eqb c "0" then EmptyString else String c EmptyString
      | rest => String c rest
      end
  end.

Definition with_fraction (whole frac : string) : string :=
  match strip_zeros frac with
  | EmptyString => whole
  | frac => (whole +:+ "." +:+ frac)%string
  end.

(** ["%g"] at [precision] for a positive value *)
Definition general (precision : Z) (q : Z * Z) : string :=
  let '(d, x) := significant precision q in
  let ds := digits 10 (Z.to_N d) in
  if (-4 <=? x) && (x <? precision) then
    if 0 <=? x then
      with_fraction
        (String.substring 0 (Z.to_nat (x + 1)) ds)
        (String.substring (Z.to_nat (x + 1)) (Z.to_nat (precision - 1 - x)) ds)
    else
      with_fraction "0" (fill "0" (Z.to_nat (- x - 1)) +:+ ds)
  else
    (with_fraction (String.substring 0 1 ds)
                   (String.substring 1 (Z.to_nat (precision - 1)) ds)
     +:+ "e" +:+ (if (x <? 0)%Z then "-" else "+")
     +:+ align_right "0" 2 (digits 10 (Z.to_N (Z.abs x))))%string.

Definition sign (negative : bool) : string := if negative then "-" else "".

Definition ostream_double (value : float) : string :=
  match Prim2SF value with
  | S754_zero s => (sign s +:+ "0")%string
  | S754_infinity s => (sign s +:+ "inf")%string
  | S754_nan => "nan"
  | S754_finite s m e => (sign s +:+ general 6 (fraction m e))%string
  end.

(** ** class ConstantPool *)

Module ConstantPool.

Record t := mk { constants_ : list float }.

Definition new : t := {| constants_ := [] |}.

Definition get (offset : nat) (p : t) : outcome float :=
  at_ (constants_ p) offset.

Definition add (constant : float) (p : t) : t * nat :=
  let constants := constants_ p ++ [constant] in
  ({| constants_ := constants |}, (length constants - 1)%nat).

End ConstantPool.

(** ** class Chunk *)

Module Chunk.

Record t := mk {
  name_ : string;
  lines_ : list Z;
  codes_ : list Z;
  constant_pool_ : ConstantPool.t;
}.

Definition new (name : string) : t :=
  {| name_ := name; lines_ := []; codes_ := [];
     constant_pool_ := ConstantPool.new |}.

Definition get_name (c : t) : string := name_ c.
Definition get_length (c : t) : nat := length (codes_ c).
Definition get_constant_pool (c : t) : ConstantPool.t := constant_pool_ c.

(** Both arguments of [deserialize] are evaluated before the call, in
    either order; each [at] throws the same exception. *)
Definition read (offset : nat) (c : t) : outcome Instruction.t :=
  line ← at_ (lines_ c) offset;
  code ← at_ (codes_ c) offset;
  Instruction.deserialize line code.

Definition write (instruction : Instruction.t) (c : t) : outcome t :=
  '(line, code) ← Instruction.serialize instruction;
  Returned {| name_ := name_ c;
              lines_ := lines_ c ++ [line];
              codes_ := codes_ c ++ [code];
              constant_pool_ := constant_pool_ c |}.

(** [chunk.get_constant_pool().add(constant)]: the pool is changed in
    place through the returned reference. *)
Definition add_constant (constant : float) (c : t) : t * nat :=
  let '(pool, index) := ConstantPool.add constant (get_constant_pool c) in
  ({| name_ := name_ c; lines_ := lines_ c; codes_ := codes_ c;
      constant_pool_ := pool |}, index).

(** [disassemble(out, index)] *)
Definition disassemble_at (out : ostream) (index : nat) (c : t)
  : outcome ostream :=
  code ← at_ (codes_ c) index;
  instr ← read index c;
  let line := Instruction.get_line instr in
  let opcode := Instruction.get_opcode instr in
  let index_str := format_zero_dec 6 (Z.of_nat index) in
  let line_str := format_zero_dec 5 line in
  let code_str := format_zero_bin 32 code in
  name ← to_string (Instruction.get_opcode instr);
  let opcode_str := align_right " " 10 name in
  let out := out << Str index_str << Str "  " << Str line_str << Str "  "
                 << Str code_str << Str "  " << Str opcode_str << Str "  " in
  out ← match opcode with
        | Instruction.Return | Instruction.Add | Instruction.Subtract
        | Instruction.Multiply | Instruction.Divide | Instruction.Negate =>
            Returned out
        | Instruction.Constant =>
            constant_index ← Instruction.get_constant_index instr;
            value ← ConstantPool.get constant_index (get_constant_pool c);
            Returned (out << Str (format_dec 6 (Z.of_nat index) +:+ "  ")
                          << NumField 10 value)
        | Instruction._Count => FAIL "opcode cannot be 'OP__COUNT'"
        end;
  Returned (out << Endl).

(** [disassemble(out)] *)
Definition disassemble (out : ostream) (c : t) : outcome ostream :=
  let out := out << Str ("== " +:+ get_name c +:+ " ==") << Endl in
  foldl (fun out index => out ← out; disassemble_at out index c)
        (Returned out) (seq 0 (get_length c)).

(** a producer calling [write] once per instruction, in order *)
Fixpoint write_all (instructions : list Instruction.t) (c : t) : outcome t :=
  match instructions with
  | [] => Returned c
  | instruction :: rest => c ← write instruction c; write_all rest c
  end.

(** the two parallel vectors have one entry per instruction *)
Definition paired (c : t) : Prop := length (lines_ c) = length (codes_ c).

End Chunk.

(** ** class VirtualMachine *)

(** [#define DEBUG_TRACE_EXECUTION] *)
Definition DEBUG_TRACE_EXECUTION : bool := true.

Module VirtualMachine.

Inductive Result := Ok | CompileError | RuntimeError.

(** [chunk_] points to a chunk the machine never writes to; it is kept
    here as the chunk itself. *)
Record t := mk {
  chunk_ : Chunk.t;
  ip_ : nat;
  stack_ : list float;
}.

Definition new (chunk : Chunk.t) : t :=
  {| chunk_ := chunk; ip_ := 0; stack_ := [] |}.

Definition push_ (value : float) (vm : t) : t :=
  {| chunk_ := chunk_ vm; ip_ := ip_ vm; stack_ := stack_ vm ++ [value] |}.

(** [back()] and [pop_back()] on an empty vector are undefined; there is no
    emptiness check. *)
Definition pop_ (vm : t) : outcome (float * t) :=
  match last (stack_ vm) with
  | Some value =>
      Returned (value, {| chunk_ := chunk_ vm; ip_ := ip_ vm;
                          stack_ := removelast (stack_ vm) |})
  | None => Undefined
  end.

Definition step (out : ostream) (instr : Instruction.t) (vm : t)
  : outcome (t * ostream) :=
  let opcode := Instruction.get_opcode instr in
  match opcode with
  | Instruction.Return =>
      '(value, vm) ← pop_ vm;
      Returned (vm, out << Num value << Endl)
  | Instruction.Add =>
      '(right_, vm) ← pop_ vm;
      '(left_, vm) ← pop_ vm;
      let result := (left_ + right_)%float in
      Returned (push_ result vm, out)
  | Instruction.Subtract =>
      '(right_, vm) ← pop_ vm;
      '(left_, vm) ← pop_ vm;
      let result := (left_ - right_)%float in
      Returned (push_ result vm, out)
  | Instruction.Multiply =>
      '(right_, vm) ← pop_ vm;
      '(left_, vm) ← pop_ vm;
      let result := (left_ * right_)%float in
      Returned (push_ result vm, out)
  | Instruction.Divide =>
      '(right_, vm) ← pop_ vm;
      '(left_, vm) ← pop_ vm;
      let result := (left_ / right_)%float in
      Returned (push_ result vm, out)
  | Instruction.Negate =>
      '(value, vm) ← pop_ vm;
      Returned (push_ (PrimFloat.opp value) vm, out)
  | Instruction.Constant =>
      index ← Instruction.get_constant_index instr;
      value ← ConstantPool.get index (Chunk.get_constant_pool (chunk_ vm));
      Returned (push_ value vm, out)
  | Instruction._Count => FAIL "invalid opcode"
  end.

Definition dump_ (out : ostream) (vm : t) : outcome ostream :=
  let out := out << Str "[ " in
  let out := foldl (fun out value => out << Num value << Str " ")
                   out (stack_ vm) in
  let out := out << Str "]" << Endl in
  Chunk.disassemble_at out (ip_ vm) (chunk_ vm).

(** The [while] loop of [run], unrolled at most [fuel] times; [None] when
    the loop condition still holds after that. *)
Fixpoint run_loop (fuel : nat) (out : ostream) (vm : t)
  : option (outcome (Result * t * ostream)) :=
  if (ip_ vm <? Chunk.get_length (chunk_ vm))%nat then
    match fuel with
    | O => None
    | S fuel =>
        let body :=
          out ← (if DEBUG_TRACE_EXECUTION then dump_ out vm
                 else Returned out);
          instr ← Chunk.read (ip_ vm) (chunk_ vm);
          '(vm, out) ← step out instr vm;
          Returned ({| chunk_ := chunk_ vm; ip_ := S (ip_ vm);
                       stack_ := stack_ vm |}, out) in
        match body with
        | Returned (vm, out) => run_loop fuel out vm
        | Failed msg => Some (Failed msg)
        | Thrown e => Some (Thrown e)
        | Undefined => Some Undefined
        end
    end
  else Some (Returned (Ok, vm, out)).

(** [run(out)]: every iteration moves [ip_] one step towards the length
    of the chunk. *)
Definition run (out : ostream) (vm : t)
  : option (outcome (Result * t * ostream)) :=
  run_loop (Chunk.get_length (chunk_ vm) - ip_ vm) out vm.

(** what [run] may hand back: [Ok], or no result at all *)
Definition ok_or_fault (o : outcome (Result * t * ostream)) : Prop :=
  match o with
  | Returned (result, _, _) => result = Ok
  | _ => True
  end.

End VirtualMachine.

(** ** main *)

#[local] Set Warnings "-inexact-float".

(** [chunk.write(Instruction(line, Constant, chunk.get_constant_pool().add(v)))]:
    the [size_t] that [add] returns is converted to the [uint] parameter. *)
Definition write_constant (line : Z) (value : float) (chunk : Chunk.t)
  : outcome Chunk.t :=
  let '(chunk, index) := Chunk.add_constant value chunk in
  Chunk.write
    (Instruction.new_indexed line Instruction.Constant
       (wrap32 (Z.of_nat index))) chunk.

Definition main_chunk : outcome Chunk.t :=
  let chunk := Chunk.new "test chunk" in
  chunk ← write_constant 1 1.2%float chunk;
  chunk ← write_constant 2 3.4%float chunk;
  chunk ← Chunk.write (Instruction.new 3 Instruction.Add) chunk;
  chunk ← write_constant 4 5.6%float chunk;
  chunk ← Chunk.write (Instruction.new 5 Instruction.Divide) chunk;
  chunk ← Chunk.write (Instruction.new 6 Instruction.Negate) chunk;
  Chunk.write (Instruction.new 7 Instruction.Return) chunk.

(** the chunk as [main] hands it to the machine *)
Definition test_chunk : Chunk.t :=
  {| Chunk.name_ := "test chunk";
     Chunk.lines_ := [1; 2; 3; 4; 5; 6; 7];
     Chunk.codes_ := [1; 257; 2; 513; 5; 6; 0];
     Chunk.constant_pool_ :=
       {| ConstantPool.constants_ := [1.2%float; 3.4%float; 5.6%float] |} |}.

(** a producer interning [values] in order, keeping the indices [add]
    returns *)
Fixpoint add_all (values : list float) (p : ConstantPool.t)
  : ConstantPool.t * list nat :=
  match values with
  | [] => (p, [])
  | value :: rest =>
      let '(p, index) := ConstantPool.add value p in
      let '(p, indices) := add_all rest p in
      (p, index :: indices)
  end.

(** the four fields every disassembled row starts with, each followed by
    two spaces *)
Definition row_prefix (index : nat) (line code : Z) (name : string) : ostream :=
  [Str (format_zero_dec 6 (Z.of_nat index)); Str "  ";
   Str (format_zero_dec 5 line); Str "  ";
   Str (format_zero_bin 32 code); Str "  ";
   Str (align_right " " 10 name); Str "  "].

Definition is_endl (x : item) : bool :=
  match x with
  | Endl => true
  | _ => false
  end.

(** the number of line terminators written *)
Definition line_count (out : ostream) : nat :=
  length (List.filter is_endl out).

(** Every instruction of the chunk decodes, and every [Constant] operand
    is an index into the pool. *)
Definition resolvable (c : Chunk.t) : Prop :=
  forall index, (index < Chunk.get_length c)%nat ->
    exists instr,
      Chunk.read index c = Returned instr /\
      (Instruction.get_opcode instr = Instruction.Constant ->
       exists k value,
         Instruction.get_constant_index instr = Returned k /\
         ConstantPool.get k (Chunk.get_constant_pool c) = Returned value).

(** [ip_++] *)
Definition advanced (vm : VirtualMachine.t) : VirtualMachine.t :=
  {| VirtualMachine.chunk_ := VirtualMachine.chunk_ vm;
     VirtualMachine.ip_ := S (VirtualMachine.ip_ vm);
     VirtualMachine.stack_ := VirtualMachine.stack_ vm |}.

(** what the trace shows of the stack: every value followed by a space *)
Definition stack_items (stack : list float) : ostream :=
  List.flat_map (fun value => [Num value; Str " "]) stack.

(** A static check of stack depths.  [depth_step] is the depth one
    instruction leaves, if the stack is deep enough for what it pops;
    [depth_after] is the depth after the [count] instructions from offset
    [index] on, starting at [depth], if every one of them decodes and finds
    the values it pops. *)
Definition depth_step (opcode : Instruction.Opcode) (depth : nat) : option nat :=
  match opcode, depth with
  | Instruction.Constant, _ => Some (S depth)
  | Instruction.Negate, S _ => Some depth
  | (Instruction.Add | Instruction.Subtract
     | Instruction.Multiply | Instruction.Divide), S (S below) => Some (S below)
  | Instruction.Return, S below => Some below
  | _, _ => None
  end.

Fixpoint depth_after (c : Chunk.t) (count index depth : nat) : option nat :=
  match count with
  | O => Some depth
  | S count =>
      match Chunk.read index c with
      | Returned instr =>
          match depth_step (Instruction.get_opcode instr) depth with
          | Some depth => depth_after c count (S index) depth
          | None => None
          end
      | _ => None
      end
  end.

(** * Properties *)

(** ** The instruction word *)

Section InstructionWord.
Import Instruction.

Lemma wrap24_small (k : Z) : 0 <= k < 2 ^ 24 -> wrap24 k = k.
Proof. intros Hk. unfold wrap24. apply Z.mod_small. exact Hk. Qed.

Lemma wrap24_range (k : Z) : 0 <= wrap24 k < 2 ^ 24.
Proof. unfold wrap24. apply Z.mod_pos_bound. lia. Qed.

Lemma shifted_operand_fits (k : Z) :
  0 <= k < 2 ^ 24 -> wrap32 (Z.shiftl k 8) = Z.shiftl k 8.
Proof.
  intros Hk. unfold wrap32. apply Z.mod_small.
  rewrite Z.shiftl_mul_pow2 by lia. lia.
Qed.

(** The operand lies above the tag byte and leaves it alone. *)
Lemma constant_word_tag (k : Z) :
  0 <= k < 2 ^ 24 ->
  Z.land (Z.lor (tag Constant) (wrap32 (Z.shiftl k 8))) 0xff = tag Constant.
Proof.
  intros Hk. rewrite shifted_operand_fits by exact Hk.
  rewrite Z.land_lor_distr_l.
  change 0xff with (Z.ones 8).
  rewrite !Z.land_ones by lia.
  rewrite Z.shiftl_mul_pow2 by lia.
  rewrite Z.mod_mul by lia.
  reflexivity.
Qed.

Lemma constant_word_operand (k : Z) :
  0 <= k < 2 ^ 24 ->
  Z.shiftr (Z.lor (tag Constant) (wrap32 (Z.shiftl k 8))) 8 = k.
Proof.
  intros Hk. rewrite shifted_operand_fits by exact Hk.
  rewrite Z.shiftr_lor, Z.shiftr_shiftl_l by lia.
  rewrite Z.sub_diag, Z.shiftl_0_r. reflexivity.
Qed.

(** A constant instruction whose stored operand is [k] comes back from
    its word with the same operand. *)
Lemma deserialize_constant_word (line k : Z) :
  0 <= k < 2 ^ 24 ->
  deserialize line (Z.lor (tag Constant) (wrap32 (Z.shiftl k 8)))
  = Returned (new_indexed line Constant k).
Proof.
  intros Hk. unfold deserialize.
  rewrite constant_word_tag by exact Hk. simpl.
  rewrite constant_word_operand by exact Hk. reflexivity.
Qed.

Lemma static_cast_Opcode_tag (opcode : Opcode) :
  static_cast_Opcode (tag opcode) = Some opcode.
Proof. destruct opcode; reflexivity. Qed.

Lemma static_cast_Opcode_unnamed (b : Z) :
  8 <= b -> static_cast_Opcode b = None.
Proof.
  intros Hb. destruct b as [|p|p]; try lia.
  do 4 (try destruct p as [p|p|]; try lia; try reflexivity).
Qed.

(** C1. An instruction built with one of the seven operations, any line
    and, for [Constant], an operand below [2 ^ 24] (the other opcodes are
    built without one) serializes to a pair that deserializes to an equal
    instruction: same opcode, same line and, for [Constant], the same
    operand. *)
Theorem serialize_deserialize_roundtrip (line : Z) (opcode : Opcode) (index : Z) :
  known opcode ->
  (opcode = Constant -> 0 <= index < 2 ^ 24) ->
  let i := if decide (opcode = Constant)
           then new_indexed line opcode index else new line opcode in
  exists word i',
    serialize i = Returned (line, word) /\
    deserialize line word = Returned i' /\
    same i i' /\
    get_opcode i' = opcode /\ get_line i' = line /\
    (opcode = Constant -> index_ i' = Some index).
Proof.
  intros Hknown Hindex i. subst i.
  destruct opcode; simpl; try (exfalso; apply Hknown; reflexivity).
  2: {
    specialize (Hindex eq_refl).
    exists (Z.lor (tag Constant) (wrap32 (Z.shiftl index 8))),
           (new_indexed line Constant index).
    unfold serialize; simpl. rewrite (wrap24_small index) by exact Hindex.
    split; [reflexivity|].
    split; [apply deserialize_constant_word; exact Hindex|].
    unfold same, new_indexed; simpl. rewrite (wrap24_small index) by exact Hindex.
    repeat split; eauto.
  }
  all: eexists _, _; split; [reflexivity|]; split; [reflexivity|];
    unfold same; simpl; repeat split; discriminate.
Qed.

Lemma serialize_deserialize_roundtrip_witness :
  exists word i',
    serialize (new_indexed 7 Constant 16777215) = Returned (7, word) /\
    deserialize 7 word = Returned i' /\
    same (new_indexed 7 Constant 16777215) i' /\
    get_opcode i' = Constant /\ get_line i' = 7 /\
    (Constant = Constant -> index_ i' = Some 16777215).
Proof.
  apply (serialize_deserialize_roundtrip 7 Constant 16777215).
  - discriminate.
  - intros _. lia.
Defined.

(** C2, as the code has it.  A word whose low byte is the sentinel 7 ends
    in the [FAIL] for an invalid opcode; a word whose low byte is 8 or more
    matches no [case] label, and control runs off the end of [deserialize]
    without a [return] and without a [FAIL]. *)
Theorem deserialize_unnamed_tag (line bytes : Z) :
  (Z.land bytes 0xff = 7 ->
   signals (deserialize line bytes) = Some InvalidOpcode) /\
  (8 <= Z.land bytes 0xff ->
   deserialize line bytes = Undefined /\
   signals (deserialize line bytes) = None).
Proof.
  unfold deserialize. split.
  - intros ->. reflexivity.
  - intros Hb. rewrite static_cast_Opcode_unnamed by exact Hb.
    split; reflexivity.
Qed.

Lemma deserialize_unnamed_tag_witness :
  signals (deserialize 1 7) = Some InvalidOpcode /\
  deserialize 1 8 = Undefined /\ signals (deserialize 1 8) = None.
Proof.
  split.
  - apply (deserialize_unnamed_tag 1 7). reflexivity.
  - apply (deserialize_unnamed_tag 1 8). vm_compute. discriminate.
Defined.

(** C10. The three-argument constructor stores [index mod 2 ^ 24]; the
    word of a [Constant] instruction built by it keeps the [Constant] tag
    in its low 8 bits, and deserializing that word gives back the operand
    modulo [2 ^ 24]. *)
Theorem operand_truncated_to_24_bits (line : Z) (opcode : Opcode) (index : Z) :
  index_ (new_indexed line opcode index) = Some (index mod 2 ^ 24) /\
  exists word i',
    serialize (new_indexed line Constant index) = Returned (line, word) /\
    Z.land word 0xff = tag Constant /\
    deserialize line word = Returned i' /\
    get_opcode i' = Constant /\
    index_ i' = Some (index mod 2 ^ 24) /\
    get_constant_index i' = Returned (Z.to_nat (index mod 2 ^ 24)).
Proof.
  split; [reflexivity|].
  pose proof (wrap24_range index) as Hk.
  exists (Z.lor (tag Constant) (wrap32 (Z.shiftl (wrap24 index) 8))),
         (new_indexed line Constant (wrap24 index)).
  split; [reflexivity|].
  split; [apply constant_word_tag; exact Hk|].
  split; [apply deserialize_constant_word; exact Hk|].
  unfold get_constant_index, new_indexed; simpl.
  rewrite (wrap24_small (wrap24 index)) by exact Hk.
  repeat split.
Qed.

End InstructionWord.

(** ** The chunk *)

Section ChunkStorage.
Import Instruction Chunk.

Lemma at_ge {A} (v : list A) (n : nat) :
  (length v <= n)%nat -> at_ v n = Thrown out_of_range.
Proof. intros Hn. unfold at_. rewrite lookup_ge_None_2 by exact Hn. reflexivity. Qed.

Lemma at_snoc_old {A} (v : list A) (x : A) (n : nat) :
  (n < length v)%nat -> at_ (v ++ [x]) n = at_ v n.
Proof. intros Hn. unfold at_. rewrite lookup_app_l by exact Hn. reflexivity. Qed.

Lemma at_snoc_new {A} (v : list A) (x : A) (n : nat) :
  n = length v -> at_ (v ++ [x]) n = Returned x.
Proof. intros ->. unfold at_. rewrite list_lookup_middle by reflexivity. reflexivity. Qed.

(** A well-formed instruction serializes, and its word deserializes to an
    equal instruction. *)
Lemma serialize_well_formed (i : Instruction.t) :
  well_formed i ->
  exists word i',
    serialize i = Returned (line_ i, word) /\
    deserialize (line_ i) word = Returned i' /\ same i i'.
Proof.
  destruct i as [line opcode operand]. intros [Hknown Hoperand]. simpl in *.
  destruct opcode; try (exfalso; apply Hknown; reflexivity).
  2: {
    destruct (Hoperand eq_refl) as (index & -> & Hindex).
    eexists _, _. split; [reflexivity|].
    split; [apply deserialize_constant_word; exact Hindex|].
    unfold same; simpl. rewrite (wrap24_small index) by exact Hindex.
    repeat split. eauto.
  }
  all: eexists _, _; split; [reflexivity|]; split; [reflexivity|];
    unfold same; simpl; repeat split; discriminate.
Qed.

Lemma write_paired (i : Instruction.t) (c c' : Chunk.t) :
  paired c -> write i c = Returned c' ->
  paired c' /\ get_length c' = S (get_length c) /\
  constant_pool_ c' = constant_pool_ c.
Proof.
  unfold paired, write, get_length. intros Hc Hw.
  destruct (serialize i) as [[line code]| | |]; simpl in Hw; try discriminate.
  injection Hw as <-. simpl. rewrite !length_app. simpl.
  repeat split; lia.
Qed.

Lemma write_keeps (i : Instruction.t) (c c' : Chunk.t) (n : nat) :
  paired c -> write i c = Returned c' -> (n < get_length c)%nat ->
  read n c' = read n c.
Proof.
  unfold paired, write, get_length, read. intros Hc Hw Hn.
  destruct (serialize i) as [[line code]| | |]; simpl in Hw; try discriminate.
  injection Hw as <-. simpl.
  rewrite !at_snoc_old by lia. reflexivity.
Qed.

Lemma write_then_read (i : Instruction.t) (c : Chunk.t) :
  paired c -> well_formed i ->
  exists c' i',
    write i c = Returned c' /\
    read (get_length c) c' = Returned i' /\ same i i'.
Proof.
  unfold paired, get_length. intros Hc Hi.
  destruct (serialize_well_formed i Hi) as (word & i' & Hs & Hd & Hsame).
  unfold write. rewrite Hs. simpl.
  eexists _, i'. split; [reflexivity|].
  split; [|exact Hsame].
  unfold read. simpl.
  rewrite (at_snoc_new (lines_ c)) by (symmetry; exact Hc).
  rewrite (at_snoc_new (codes_ c)) by reflexivity. exact Hd.
Qed.

Lemma write_all_spec (instructions : list Instruction.t) :
  forall c : Chunk.t,
    paired c -> Forall well_formed instructions ->
    exists c',
      write_all instructions c = Returned c' /\ paired c' /\
      get_length c' = (get_length c + length instructions)%nat /\
      (forall n, (n < get_length c)%nat -> read n c' = read n c) /\
      (forall n i, instructions !! n = Some i ->
         exists i', read (get_length c + n) c' = Returned i' /\ same i i').
Proof.
  induction instructions as [|i rest IH]; intros c Hc Hall.
  - exists c. simpl. repeat split; try done.
  - apply Forall_cons in Hall as [Hi Hrest].
    destruct (write_then_read i c Hc Hi) as (c1 & i' & Hw & Hr & Hsame).
    destruct (write_paired i c c1 Hc Hw) as (Hc1 & Hlen1 & _).
    destruct (IH c1 Hc1 Hrest) as (c' & Hall' & Hc' & Hlen' & Hold & Hnew).
    exists c'. simpl. rewrite Hw. simpl.
    split; [exact Hall'|]. split; [exact Hc'|].
    split; [rewrite Hlen', Hlen1; lia|].
    split.
    + intros n Hn. rewrite Hold by lia. apply (write_keeps i c c1 n Hc Hw Hn).
    + intros [|n] j Hj; simpl in Hj.
      * injection Hj as <-. exists i'. rewrite Nat.add_0_r.
        rewrite Hold by lia. split; [exact Hr | exact Hsame].
      * destruct (Hnew n j Hj) as (j' & Hrj & Hsj). exists j'.
        rewrite Hlen1 in Hrj. replace (get_length c + S n)%nat
          with (S (get_length c) + n)%nat by lia.
        split; [exact Hrj | exact Hsj].
Qed.

Lemma new_well_formed (line : Z) (opcode : Opcode) :
  known opcode -> opcode <> Constant -> well_formed (Instruction.new line opcode).
Proof. intros Hknown Hop. split; [exact Hknown|]. intros Heq. contradiction. Qed.

Lemma new_indexed_well_formed (line : Z) (opcode : Opcode) (index : Z) :
  known opcode -> well_formed (new_indexed line opcode index).
Proof.
  intros Hknown. split; [exact Hknown|]. intros _.
  exists (wrap24 index). split; [reflexivity | apply wrap24_range].
Qed.

Lemma main_chunk_built : main_chunk = Returned test_chunk.
Proof. reflexivity. Qed.

(** C5. A new chunk has its two vectors paired and [write] keeps them
    paired, adding one entry to each; after writing [n] well-formed
    instructions to a new chunk its length is [n], and [read] at every
    position below [n] returns an instruction equal to the one written
    there. *)
Theorem chunk_write_read (name : string) (instructions : list Instruction.t) :
  Forall well_formed instructions ->
  paired (Chunk.new name) /\
  (forall i c c', paired c -> write i c = Returned c' ->
     paired c' /\ get_length c' = S (get_length c)) /\
  (forall value c, paired c -> paired (add_constant value c).1) /\
  exists c,
    write_all instructions (Chunk.new name) = Returned c /\
    paired c /\
    get_length c = length instructions /\
    (forall n i, instructions !! n = Some i ->
       exists i', read n c = Returned i' /\ same i i').
Proof.
  intros Hall. split; [reflexivity|]. split.
  - intros i c c' Hc Hw. destruct (write_paired i c c' Hc Hw) as (? & ? & _).
    split; assumption.
  - split; [intros value c Hc; exact Hc|].
    destruct (write_all_spec instructions (Chunk.new name) eq_refl Hall)
      as (c & Hw & Hc & Hlen & _ & Hread).
    exists c. repeat split; assumption.
Qed.

Lemma chunk_write_read_witness :
  let instructions :=
    [new_indexed 1 Constant 0; new_indexed 2 Constant 16777215;
     Instruction.new 3 Add; Instruction.new 4 Return] in
  paired (Chunk.new "test chunk") /\
  (forall i c c', paired c -> write i c = Returned c' ->
     paired c' /\ get_length c' = S (get_length c)) /\
  (forall value c, paired c -> paired (add_constant value c).1) /\
  exists c,
    write_all instructions (Chunk.new "test chunk") = Returned c /\
    paired c /\
    get_length c = 4%nat /\
    (forall n i, instructions !! n = Some i ->
       exists i', read n c = Returned i' /\ same i i').
Proof.
  apply (chunk_write_read "test chunk").
  repeat apply Forall_cons_2; try apply Forall_nil_2;
    first [ apply new_indexed_well_formed; discriminate
          | apply new_well_formed; discriminate ].
Defined.

(** C6. [get] on a constant pool and [read] on a chunk throw the range
    error of [at] when the offset is not below the length; both are [const]
    and hand back nothing else. *)
Theorem out_of_range_access (p : ConstantPool.t) (c : Chunk.t) (n : nat) :
  ((length (ConstantPool.constants_ p) <= n)%nat ->
   ConstantPool.get n p = Thrown out_of_range /\
   signals (ConstantPool.get n p) = Some IndexOutOfRange) /\
  ((get_length c <= n)%nat ->
   read n c = Thrown out_of_range /\
   signals (read n c) = Some IndexOutOfRange).
Proof.
  split.
  - intros Hn. unfold ConstantPool.get. rewrite at_ge by exact Hn.
    split; reflexivity.
  - intros Hn. unfold read, get_length in *.
    rewrite (at_ge (codes_ c)) by exact Hn.
    destruct (at_ (lines_ c) n) as [line| |[]|] eqn:Hline; simpl.
    + split; reflexivity.
    + unfold at_ in Hline. destruct (lines_ c !! n); discriminate.
    + split; reflexivity.
    + unfold at_ in Hline. destruct (lines_ c !! n); discriminate.
Qed.

Lemma out_of_range_access_witness :
  (ConstantPool.get 3 (get_constant_pool test_chunk) = Thrown out_of_range /\
   signals (ConstantPool.get 3 (get_constant_pool test_chunk))
   = Some IndexOutOfRange) /\
  (read 7 test_chunk = Thrown out_of_range /\
   signals (read 7 test_chunk) = Some IndexOutOfRange).
Proof.
  split.
  - apply (out_of_range_access (get_constant_pool test_chunk) test_chunk 3).
    vm_compute. lia.
  - apply (out_of_range_access (get_constant_pool test_chunk) test_chunk 7).
    vm_compute. lia.
Defined.

(** C8, as the code has it.  The row of a [Constant] instruction ends with
    two more fields after the four common ones: a width-6 field holding the
    offset [index] of the instruction in the chunk (the argument of
    [disassemble], not the operand read from the instruction), and the
    width-10 field of the value the pool holds at the operand. *)
Theorem disassemble_constant_row
    (out : ostream) (index : nat) (c : Chunk.t)
    (code : Z) (instr : Instruction.t) (constant_index : nat) (value : float) :
  at_ (codes_ c) index = Returned code ->
  read index c = Returned instr ->
  get_opcode instr = Constant ->
  get_constant_index instr = Returned constant_index ->
  ConstantPool.get constant_index (get_constant_pool c) = Returned value ->
  disassemble_at out index c
  = Returned (out << Str (format_zero_dec 6 (Z.of_nat index)) << Str "  "
                  << Str (format_zero_dec 5 (get_line instr)) << Str "  "
                  << Str (format_zero_bin 32 code) << Str "  "
                  << Str (align_right " " 10 "CONSTANT") << Str "  "
                  << Str (format_dec 6 (Z.of_nat index) +:+ "  ")
                  << NumField 10 value
                  << Endl).
Proof.
  intros Hcode Hread Hop Hk Hvalue. unfold disassemble_at.
  rewrite Hcode, Hread. simpl. rewrite Hop. simpl.
  rewrite Hk. simpl. rewrite Hvalue. reflexivity.
Qed.

Lemma disassemble_constant_row_witness :
  read 3 test_chunk = Returned (new_indexed 4 Constant 2) /\
  get_constant_index (new_indexed 4 Constant 2) = Returned 2%nat /\
  disassemble_at [] 3 test_chunk
  = Returned [Str "000003"; Str "  "; Str "00004"; Str "  ";
              Str "00000000000000000000001000000001"; Str "  ";
              Str "  CONSTANT"; Str "  ";
              Str "     3  "; NumField 10 5.6%float; Endl].
Proof.
  split; [reflexivity|]. split; [reflexivity|].
  apply (disassemble_constant_row [] 3 test_chunk 513
           (new_indexed 4 Constant 2) 2 5.6%float); reflexivity.
Defined.

End ChunkStorage.

(** ** The virtual machine *)

Section Machine.
Import Instruction VirtualMachine.

Lemma pop_push (value : float) (vm : VirtualMachine.t) :
  pop_ (push_ value vm) = Returned (value, vm).
Proof.
  destruct vm as [chunk ip stack]. unfold pop_, push_. simpl.
  rewrite last_snoc, removelast_last. reflexivity.
Qed.

Lemma pop_empty (vm : VirtualMachine.t) :
  stack_ vm = [] -> pop_ vm = Undefined.
Proof. intros Hs. unfold pop_. rewrite Hs. reflexivity. Qed.

Lemma pop_keeps (vm vm' : VirtualMachine.t) (value : float) :
  pop_ vm = Returned (value, vm') ->
  chunk_ vm' = chunk_ vm /\ ip_ vm' = ip_ vm.
Proof.
  unfold pop_. destruct (last (stack_ vm)); intros H; [|discriminate].
  injection H as _ <-. split; reflexivity.
Qed.

(** [step] leaves the chunk and the instruction pointer alone. *)
Lemma step_keeps (out out' : ostream) (instr : Instruction.t)
    (vm vm' : VirtualMachine.t) :
  step out instr vm = Returned (vm', out') ->
  chunk_ vm' = chunk_ vm /\ ip_ vm' = ip_ vm.
Proof.
  unfold step. destruct (get_opcode instr); try discriminate.
  2: {
    destruct (get_constant_index instr) as [k| | |]; simpl; try discriminate.
    destruct (ConstantPool.get k _) as [v| | |]; simpl; try discriminate.
    intros H. injection H as <- _. split; reflexivity.
  }
  all: destruct (pop_ vm) as [[v1 vm1]| | |] eqn:H1; simpl; try discriminate;
    destruct (pop_keeps _ _ _ H1) as [Hc1 Hi1].
  1, 6: intros H; injection H as <- _; split; assumption.
  all: destruct (pop_ vm1) as [[v2 vm2]| | |] eqn:H2; simpl; try discriminate;
    destruct (pop_keeps _ _ _ H2) as [Hc2 Hi2];
    intros H; injection H as <- _; simpl; split; congruence.
Qed.

Lemma run_loop_enough_fuel (fuel : nat) :
  forall (out : ostream) (vm : VirtualMachine.t),
    (Chunk.get_length (chunk_ vm) - ip_ vm <= fuel)%nat ->
    exists o, run_loop fuel out vm = Some o /\ ok_or_fault o.
Proof.
  induction fuel as [|fuel IH]; intros out vm Hfuel.
  - simpl. destruct (Nat.ltb_spec (ip_ vm) (Chunk.get_length (chunk_ vm))) as [Hlt|Hge];
      [lia|]. eexists. split; reflexivity.
  - simpl. destruct (Nat.ltb_spec (ip_ vm) (Chunk.get_length (chunk_ vm))) as [Hlt|Hge].
    2: { eexists. split; reflexivity. }
    unfold DEBUG_TRACE_EXECUTION.
    destruct (dump_ out vm) as [out1| | |]; simpl;
      try (eexists; split; [reflexivity | exact I]).
    destruct (Chunk.read (ip_ vm) (chunk_ vm)) as [instr| | |]; simpl;
      try (eexists; split; [reflexivity | exact I]).
    destruct (step out1 instr vm) as [[vm1 out2]| | |] eqn:Hstep; simpl;
      try (eexists; split; [reflexivity | exact I]).
    apply IH. simpl.
    destruct (step_keeps _ _ _ _ _ Hstep) as [-> ->]. lia.
Qed.

(** C3. With [a] pushed and then [b], [pop_] gives [b] first and [a]
    next; [step] on [Subtract] leaves [a - b] in their place and [step] on
    [Divide] leaves [a / b] (as [Add] and [Multiply] leave [a + b] and
    [a * b]), writing nothing.  [Divide] has no test for zero: [1 / 0] is
    pushed as infinity. *)
Theorem binary_operand_order
    (a b : float) (out : ostream) (line : Z) (operand : option Z)
    (vm : VirtualMachine.t) :
  let pushed := push_ b (push_ a vm) in
  pop_ pushed = Returned (b, push_ a vm) /\
  pop_ (push_ a vm) = Returned (a, vm) /\
  step out (Instruction.mk line Subtract operand) pushed
  = Returned (push_ (a - b)%float vm, out) /\
  step out (Instruction.mk line Divide operand) pushed
  = Returned (push_ (a / b)%float vm, out) /\
  step out (Instruction.mk line Add operand) pushed
  = Returned (push_ (a + b)%float vm, out) /\
  step out (Instruction.mk line Multiply operand) pushed
  = Returned (push_ (a * b)%float vm, out) /\
  stack_ (push_ (a - b)%float vm) = stack_ vm ++ [(a - b)%float] /\
  stack_ (push_ (a / b)%float vm) = stack_ vm ++ [(a / b)%float] /\
  step out (Instruction.mk line Divide operand) (push_ 0%float (push_ 1%float vm))
  = Returned (push_ infinity vm, out).
Proof.
  intros pushed. subst pushed. unfold step. simpl.
  rewrite !pop_push. simpl. rewrite !pop_push. simpl.
  repeat split; reflexivity.
Qed.

(** What [operator<<] writes for some doubles, among them the values the
    run of [main] puts on the stack. *)
Lemma ostream_double_examples :
  map ostream_double
      [1.2; 1.2 + 3.4; 5.6; (1.2 + 3.4) / 5.6; 0; -0; 100000; 1000000;
       999999.5; 0.0001; 0.00001; 123456789; 1 / 0; nan]%float
  = ["1.2"; "4.6"; "5.6"; "0.821429"; "0"; "-0"; "100000"; "1e+06";
     "1e+06"; "0.0001"; "1e-05"; "1.23457e+08"; "inf"; "nan"].
Proof. vm_compute. reflexivity. Qed.

(** the end of the output of [main]'s run, and its stack *)
Lemma main_run_end (result : Result) (vm : VirtualMachine.t) (out : ostream) :
  run [] (VirtualMachine.new test_chunk) = Some (Returned (result, vm, out)) ->
  result = Ok /\ stack_ vm = [] /\ ip_ vm = 7%nat /\
  exists trace, out = trace << Num (-0.8214285714285714)%float << Endl.
Proof.
  intros Hrun.
  split; [|split; [|split; [|exists (take (length out - 2) out)]]];
    vm_compute in Hrun; injection Hrun as <- <- <-; vm_compute; reflexivity.
Qed.

(** C4, as the code has it.  The chunk [main] builds is [test_chunk];
    running a new machine (instruction pointer 0, empty stack) over it
    returns [Ok] with the stack empty, and the last things written to the
    stream are the value [-((1.2 + 3.4) / 5.6)], which is the double
    [-0.8214285714285714], and a line terminator.  [operator<<] writes that
    double with the 6 significant digits of a stream in its default state:
    the characters on the stream are [-0.821429]. *)
Theorem main_runs_to_ok :
  main_chunk = Returned test_chunk /\
  ip_ (VirtualMachine.new test_chunk) = 0%nat /\
  stack_ (VirtualMachine.new test_chunk) = [] /\
  exists vm trace,
    run [] (VirtualMachine.new test_chunk)
    = Some (Returned (Ok, vm, trace << Num (- ((1.2 + 3.4) / 5.6))%float << Endl)) /\
    (- ((1.2 + 3.4) / 5.6))%float = (-0.8214285714285714)%float /\
    ostream_double (- ((1.2 + 3.4) / 5.6))%float = "-0.821429" /\
    stack_ vm = [] /\
    ip_ vm = Chunk.get_length test_chunk.
Proof.
  split; [reflexivity|]. split; [reflexivity|]. split; [reflexivity|].
  destruct (run [] (VirtualMachine.new test_chunk)) as [[[[result vm] out]| | |]|] eqn:Hrun;
    try (vm_compute in Hrun; discriminate).
  destruct (main_run_end result vm out Hrun) as (-> & Hstack & Hip & trace & ->).
  exists vm, trace.
  split; [reflexivity|]. split; [vm_compute; reflexivity|].
  split; [vm_compute; reflexivity|]. split; [exact Hstack | exact Hip].
Qed.

(** C4 as stated fails: the value the run of [main] writes last does not
    reach the stream as [-0.8214285714285714]. *)
Lemma main_output_not_17_digits :
  ~ (exists vm trace value,
       run [] (VirtualMachine.new test_chunk)
       = Some (Returned (Ok, vm, trace << Num value << Endl)) /\
       ostream_double value = "-0.8214285714285714").
Proof.
  intros (vm & trace & value & Hrun & Htext).
  destruct (main_run_end _ _ _ Hrun) as (_ & _ & _ & trace' & Hout).
  apply app_inj_tail in Hout as [Hout _].
  apply app_inj_tail in Hout as [_ Hvalue].
  injection Hvalue as ->. vm_compute in Htext. discriminate.
Qed.

(** C7, as the code has it.  On an empty stack [step] on an arithmetic
    opcode reaches [back()] on an empty vector: the behaviour is undefined
    and no condition is signalled. *)
Theorem step_empty_stack_undefined
    (out : ostream) (instr : Instruction.t) (vm : VirtualMachine.t) :
  stack_ vm = [] ->
  get_opcode instr ∈ [Add; Subtract; Multiply; Divide; Negate] ->
  step out instr vm = Undefined /\ signals (step out instr vm) = None.
Proof.
  intros Hs Hop. unfold step.
  rewrite (pop_empty vm Hs).
  repeat (apply elem_of_cons in Hop as [-> | Hop]; [split; reflexivity|]).
  apply elem_of_nil in Hop. contradiction.
Qed.

Lemma step_empty_stack_undefined_witness :
  step [] (Instruction.new 1 Add) (VirtualMachine.new (Chunk.new "test chunk"))
  = Undefined /\
  signals (step [] (Instruction.new 1 Add)
             (VirtualMachine.new (Chunk.new "test chunk"))) = None.
Proof.
  apply (step_empty_stack_undefined [] (Instruction.new 1 Add)
           (VirtualMachine.new (Chunk.new "test chunk"))).
  - reflexivity.
  - simpl. apply list_elem_of_here.
Defined.

(** C7 as stated fails: [step] on [Add] with an empty stack does not signal
    a stack underflow. *)
Lemma step_empty_stack_no_underflow_signal :
  signals (step [] (Instruction.new 1 Add)
             (VirtualMachine.new (Chunk.new "test chunk")))
  <> Some StackUnderflow.
Proof. vm_compute. discriminate. Qed.

(** C9. [run] always comes to an end, and when it returns it returns
    [Ok]: every other way out of [run] and [step] is a fault that returns
    nothing. *)
Theorem run_returns_ok (out : ostream) (vm : VirtualMachine.t) :
  exists o,
    run out vm = Some o /\
    match o with
    | Returned (result, _, _) => result = Ok
    | Failed _ | Thrown _ | Undefined => True
    end.
Proof.
  unfold run.
  destruct (run_loop_enough_fuel
              (Chunk.get_length (chunk_ vm) - ip_ vm) out vm (Nat.le_refl _))
    as (o & Hrun & Hok).
  exists o. split; [exact Hrun | exact Hok].
Qed.

End Machine.

(** * Further properties *)

(** ** Words and instructions *)

Section Words.
Import Instruction.

Lemma static_cast_Opcode_Some (b : Z) (opcode : Opcode) :
  static_cast_Opcode b = Some opcode -> tag opcode = b.
Proof.
  destruct b as [|p|p]; simpl; try discriminate.
  - intros H. injection H as <-. reflexivity.
  - do 3 (try destruct p as [p|p|]); simpl; intros H; try discriminate;
      injection H as <-; reflexivity.
Qed.

Lemma low_byte_range (bytes : Z) : 0 <= Z.land bytes 0xff < 256.
Proof.
  change 0xff with (Z.ones 8). rewrite Z.land_ones by lia.
  apply Z.mod_pos_bound. lia.
Qed.

Lemma static_cast_Opcode_known (b : Z) :
  0 <= b <= 6 ->
  exists opcode, static_cast_Opcode b = Some opcode /\ known opcode.
Proof.
  intros Hb.
  assert (b = 0 \/ b = 1 \/ b = 2 \/ b = 3 \/ b = 4 \/ b = 5 \/ b = 6)
    as Hcases by lia.
  repeat destruct Hcases as [-> | Hcases]; try subst b;
    eexists; (split; [reflexivity | discriminate]).
Qed.

(** a word is its low byte or-ed with the rest shifted back in place *)
Lemma word_split (bytes : Z) :
  Z.lor (Z.land bytes 0xff) (Z.shiftl (Z.shiftr bytes 8) 8) = bytes.
Proof.
  change 0xff with (Z.ones 8).
  rewrite <- Z.ldiff_ones_r by lia.
  rewrite Z.lor_comm. apply Z.lor_ldiff_and.
Qed.

Lemma deserialize_inv (line bytes : Z) (i : Instruction.t) :
  deserialize line bytes = Returned i ->
  known (get_opcode i) /\
  tag (get_opcode i) = Z.land bytes 0xff /\
  get_line i = line /\
  index_ i = (if decide (get_opcode i = Constant)
              then Some (wrap24 (Z.shiftr bytes 8)) else None).
Proof.
  unfold deserialize.
  destruct (static_cast_Opcode (Z.land bytes 0xff)) as [opcode|] eqn:Hcast;
    [|discriminate].
  apply static_cast_Opcode_Some in Hcast. rewrite <- Hcast.
  destruct opcode; try discriminate; intros H; injection H as <-;
    simpl; repeat split; discriminate.
Qed.

(** X1. [deserialize] returns an instruction exactly for the words whose
    low byte is at most 6, whatever the line and the upper 24 bits; the
    instruction then has the opcode numbered by the low byte and the given
    line, carries bits 8 and up (24 of them) as its operand if the opcode is
    [Constant], and no operand otherwise. *)
Theorem deserialize_returns_iff (line bytes : Z) :
  ((exists i, deserialize line bytes = Returned i) <-> Z.land bytes 0xff <= 6) /\
  (forall i, deserialize line bytes = Returned i ->
     known (get_opcode i) /\
     tag (get_opcode i) = Z.land bytes 0xff /\
     get_line i = line /\
     index_ i = (if decide (get_opcode i = Constant)
                 then Some (Z.shiftr bytes 8 mod 2 ^ 24) else None)).
Proof.
  split; [|apply deserialize_inv].
  split.
  - intros [i Hi]. destruct (deserialize_inv _ _ _ Hi) as (Hknown & Htag & _).
    rewrite <- Htag. destruct (get_opcode i); simpl; try lia.
    exfalso. apply Hknown. reflexivity.
  - intros Hle. pose proof (low_byte_range bytes) as Hb.
    destruct (static_cast_Opcode_known (Z.land bytes 0xff)) as (opcode & Hcast & Hknown);
      [lia|].
    unfold deserialize. rewrite Hcast.
    destruct opcode; try (eexists; reflexivity).
    exfalso. apply Hknown. reflexivity.
Qed.

(** X2. Decoding a 32-bit word and encoding the result gives the word
    back when its low byte is 1 ([Constant]); for the other six opcodes the
    upper 24 bits are dropped and only the low byte comes back. *)
Theorem deserialize_serialize (line bytes : Z) :
  0 <= bytes < 2 ^ 32 ->
  Z.land bytes 0xff <= 6 ->
  exists i,
    deserialize line bytes = Returned i /\
    serialize i
    = Returned (line, if decide (Z.land bytes 0xff = 1) then bytes
                      else Z.land bytes 0xff).
Proof.
  intros Hbytes Hle. pose proof (low_byte_range bytes) as Hb.
  destruct (static_cast_Opcode_known (Z.land bytes 0xff)) as (opcode & Hcast & Hknown);
    [lia|].
  pose proof (static_cast_Opcode_Some _ _ Hcast) as Htag.
  unfold deserialize. rewrite Hcast.
  destruct opcode; try (exfalso; apply Hknown; reflexivity);
    simpl in Htag; rewrite <- Htag; simpl.
  2: {
    eexists. split; [reflexivity|]. unfold serialize. simpl.
    assert (0 <= Z.shiftr bytes 8 < 2 ^ 24) as Hop.
    { rewrite Z.shiftr_div_pow2 by lia. split.
      - apply Z.div_pos; lia.
      - apply Z.div_lt_upper_bound; lia. }
    rewrite (wrap24_small _ Hop), (shifted_operand_fits _ Hop).
    f_equal. f_equal. rewrite Htag at 1. apply word_split.
  }
  all: eexists; split; reflexivity.
Qed.

Lemma deserialize_serialize_witness :
  exists i,
    deserialize 9 0xabcdef01 = Returned i /\
    serialize i = Returned (9, 0xabcdef01).
Proof.
  apply (deserialize_serialize 9 0xabcdef01).
  - lia.
  - vm_compute. discriminate.
Defined.

Lemma lor_tag_operand (k : Z) :
  0 <= k < 2 ^ 24 -> Z.lor 1 (Z.shiftl k 8) = 1 + 256 * k.
Proof.
  intros Hk.
  assert (Z.land 1 (Z.shiftl k 8) = 0) as Hdisjoint.
  { apply Z.bits_inj'. intros n Hn. rewrite Z.land_spec, Z.bits_0.
    destruct (Z.ltb_spec n 8) as [Hlt|Hge].
    - rewrite (Z.shiftl_spec_low k 8 n) by lia. apply andb_false_r.
    - rewrite (Z.bits_above_log2 1 n) by (simpl; lia). reflexivity. }
  rewrite <- Z.lxor_lor by exact Hdisjoint.
  rewrite <- Z.add_nocarry_lxor by exact Hdisjoint.
  rewrite Z.shiftl_mul_pow2 by lia. lia.
Qed.

(** X3. The word of an instruction built with an operand, for any of the
    seven operations: it fits 32 bits, its low byte is the opcode's number,
    and the 24 bits above hold [index mod 2 ^ 24] for [Constant] and zero for
    every other opcode, whose operand is not encoded at all. *)
Theorem serialize_word_layout (line : Z) (opcode : Opcode) (index : Z) :
  known opcode ->
  exists word,
    serialize (new_indexed line opcode index) = Returned (line, word) /\
    0 <= word < 2 ^ 32 /\
    Z.land word 0xff = tag opcode /\
    Z.shiftr word 8
    = (if decide (opcode = Constant) then index mod 2 ^ 24 else 0).
Proof.
  intros Hknown. unfold serialize. simpl.
  destruct opcode; try (exfalso; apply Hknown; reflexivity); simpl.
  2: {
    pose proof (wrap24_range index) as Hk.
    eexists. split; [reflexivity|].
    split; [|split; [apply (constant_word_tag _ Hk)
                    | apply (constant_word_operand _ Hk)]].
    rewrite (shifted_operand_fits _ Hk), (lor_tag_operand _ Hk). lia.
  }
  all: eexists; split; [reflexivity|]; repeat split; lia.
Qed.

Lemma serialize_word_layout_witness :
  exists word,
    serialize (new_indexed 3 Add 77) = Returned (3, word) /\
    0 <= word < 2 ^ 32 /\
    Z.land word 0xff = tag Add /\
    Z.shiftr word 8 = 0.
Proof. apply (serialize_word_layout 3 Add 77). discriminate. Defined.

(** X4. [write] of an instruction with one of the seven operations and,
    if that is [Constant], an operand: the chunk comes back with the
    instruction's line added at the end of [lines_] and its word, the one
    [serialize] returns, added at the end of [codes_]; the name and the
    constant pool are as they were.  For the sentinel opcode [write] ends
    in [FAIL], and for a [Constant] built without an operand it reads the
    uninitialised bit-field; no chunk comes back in either case. *)
Theorem write_appends (i : Instruction.t) (c : Chunk.t) :
  (known (opcode_ i) ->
   (opcode_ i = Constant -> is_Some (index_ i)) ->
   exists word,
     serialize i = Returned (line_ i, word) /\
     Chunk.write i c
     = Returned {| Chunk.name_ := Chunk.name_ c;
                   Chunk.lines_ := Chunk.lines_ c ++ [line_ i];
                   Chunk.codes_ := Chunk.codes_ c ++ [word];
                   Chunk.constant_pool_ := Chunk.constant_pool_ c |}) /\
  (opcode_ i = _Count ->
   Chunk.write i c = Failed "invalid opcode '_COUNT'") /\
  (opcode_ i = Constant -> index_ i = None -> Chunk.write i c = Undefined).
Proof.
  destruct i as [line opcode operand]. unfold Chunk.write, serialize, known.
  simpl. split; [|split].
  - intros Hknown Hoperand.
    destruct opcode; try (eexists; split; reflexivity); [|contradiction].
    destruct (Hoperand eq_refl) as [k ->]. eexists. split; reflexivity.
  - intros ->. reflexivity.
  - intros -> ->. reflexivity.
Qed.

(** X5. Two well-formed instructions with the same line and word are the
    same instruction: the encoding loses nothing a producer may put in. *)
Theorem serialize_injective (i j : Instruction.t) :
  well_formed i -> well_formed j ->
  serialize i = serialize j ->
  same i j.
Proof.
  intros Hi Hj Heq.
  destruct (serialize_well_formed i Hi) as (wi & i' & Hsi & Hdi & Hsame_i).
  destruct (serialize_well_formed j Hj) as (wj & j' & Hsj & Hdj & Hsame_j).
  rewrite Hsi, Hsj in Heq. injection Heq as Hline Hword.
  rewrite Hline, Hword in Hdi. rewrite Hdi in Hdj. injection Hdj as <-.
  destruct Hsame_i as (Hop_i & Hline_i & Hidx_i).
  destruct Hsame_j as (Hop_j & Hline_j & Hidx_j).
  split; [congruence|]. split; [congruence|].
  intros Hc. destruct (Hidx_i Hc) as (k & Hk & Hk').
  destruct (Hidx_j ltac:(congruence)) as (k2 & Hk2 & Hk2').
  exists k. split; [exact Hk | congruence].
Qed.

Lemma serialize_injective_witness :
  same (new_indexed 4 Add 9) (Instruction.new 4 Add).
Proof.
  apply (serialize_injective (new_indexed 4 Add 9) (Instruction.new 4 Add)).
  - apply new_indexed_well_formed. discriminate.
  - apply new_well_formed; discriminate.
  - reflexivity.
Defined.

End Words.

(** ** The constant pool *)

Section Pool.
Import ConstantPool.

(** X6. [add] returns the length the pool had, grows the pool by one
    entry, leaves every earlier entry where it was, and [get] at the
    returned index gives the added value. *)
Theorem add_then_get (value : float) (p : ConstantPool.t) :
  let '(p', index) := add value p in
  index = length (constants_ p) /\
  length (constants_ p') = S (length (constants_ p)) /\
  get index p' = Returned value /\
  (forall n, (n < length (constants_ p))%nat -> get n p' = get n p).
Proof.
  unfold add, get. simpl. rewrite length_app. simpl.
  split; [lia|]. split; [lia|]. split.
  - apply at_snoc_new. lia.
  - intros n Hn. apply at_snoc_old. exact Hn.
Qed.

Lemma add_all_spec (values : list float) :
  forall p : ConstantPool.t,
    constants_ (add_all values p).1 = constants_ p ++ values /\
    (add_all values p).2 = seq (length (constants_ p)) (length values).
Proof.
  induction values as [|value rest IH]; intros p; simpl.
  - rewrite app_nil_r. split; reflexivity.
  - specialize (IH {| constants_ := constants_ p ++ [value] |}).
    destruct (add_all rest _) as [p' indices]. simpl in *.
    destruct IH as [-> ->]. rewrite <- app_assoc, !length_app. simpl.
    split; [reflexivity|]. f_equal; [lia|]. f_equal. lia.
Qed.

(** X7. Interning values one after the other into a new pool returns the
    indices 0, 1, 2, ... in order, and [get] at the [n]-th index gives the
    [n]-th value; equal values get separate slots. *)
Theorem add_all_indices (values : list float) :
  let '(p, indices) := add_all values ConstantPool.new in
  indices = seq 0 (length values) /\
  length (constants_ p) = length values /\
  (forall n value, values !! n = Some value -> get n p = Returned value).
Proof.
  destruct (add_all_spec values ConstantPool.new) as [Hp Hindices].
  destruct (add_all values ConstantPool.new) as [p indices]. simpl in *.
  split; [exact Hindices|]. rewrite Hp. split; [reflexivity|].
  intros n value Hn. unfold get, at_. rewrite Hp, Hn. reflexivity.
Qed.

End Pool.

(** ** Disassembly *)

Section Disassembly.
Import Instruction Chunk.

Lemma read_inv (index : nat) (c : Chunk.t) (instr : Instruction.t) :
  read index c = Returned instr ->
  exists line code,
    lines_ c !! index = Some line /\ codes_ c !! index = Some code /\
    deserialize line code = Returned instr.
Proof.
  unfold read, at_. intros H.
  destruct (lines_ c !! index) as [line|]; simpl in H; [|discriminate].
  destruct (codes_ c !! index) as [code|]; simpl in H; [|discriminate].
  exists line, code. repeat split. exact H.
Qed.

Lemma to_string_known (opcode : Opcode) :
  known opcode -> exists name, to_string opcode = Returned name.
Proof.
  intros Hknown. destruct opcode; try (eexists; reflexivity).
  exfalso. apply Hknown. reflexivity.
Qed.

Lemma row_plain (out : ostream) (index : nat) (c : Chunk.t)
    (instr : Instruction.t) :
  read index c = Returned instr ->
  get_opcode instr <> Constant ->
  exists code name,
    codes_ c !! index = Some code /\
    to_string (get_opcode instr) = Returned name /\
    disassemble_at out index c
    = Returned (out ++ row_prefix index (get_line instr) code name ++ [Endl]).
Proof.
  intros Hread Hop.
  destruct (read_inv _ _ _ Hread) as (line & code & _ & Hcode & Hdec).
  destruct (deserialize_inv _ _ _ Hdec) as (Hknown & _).
  destruct (to_string_known _ Hknown) as [name Hname].
  exists code, name. split; [exact Hcode|]. split; [exact Hname|].
  unfold disassemble_at, at_. rewrite Hcode. simpl. rewrite Hread. simpl.
  rewrite Hname. simpl.
  destruct (get_opcode instr); try contradiction; simpl;
    try (rewrite <- !app_assoc; reflexivity).
Qed.

Lemma row_constant (out : ostream) (index : nat) (c : Chunk.t)
    (instr : Instruction.t) (k : nat) (value : float) :
  read index c = Returned instr ->
  get_opcode instr = Constant ->
  get_constant_index instr = Returned k ->
  ConstantPool.get k (get_constant_pool c) = Returned value ->
  exists code,
    codes_ c !! index = Some code /\
    disassemble_at out index c
    = Returned (out ++ row_prefix index (get_line instr) code "CONSTANT"
                    ++ [Str (format_dec 6 (Z.of_nat index) +:+ "  ");
                        NumField 10 value; Endl]).
Proof.
  intros Hread Hop Hk Hvalue.
  destruct (read_inv _ _ _ Hread) as (line & code & _ & Hcode & _).
  exists code. split; [exact Hcode|].
  unfold disassemble_at, at_. rewrite Hcode. simpl. rewrite Hread. simpl.
  rewrite Hop. simpl. rewrite Hk. simpl. rewrite Hvalue. simpl.
  rewrite <- !app_assoc. reflexivity.
Qed.

(** What [disassemble(out, index)] writes does not depend on what the
    stream holds, and goes after it. *)
Lemma disassemble_at_appends (out : ostream) (index : nat) (c : Chunk.t) :
  disassemble_at out index c
  = (row ← disassemble_at [] index c; Returned (out ++ row)).
Proof.
  unfold disassemble_at.
  destruct (at_ (codes_ c) index) as [code| | |]; simpl; try reflexivity.
  destruct (read index c) as [instr| | |]; simpl; try reflexivity.
  destruct (to_string (get_opcode instr)) as [name| | |]; simpl; try reflexivity.
  destruct (get_opcode instr); simpl; try reflexivity;
    try (rewrite <- !app_assoc; reflexivity).
  destruct (get_constant_index instr) as [k| | |]; simpl; try reflexivity.
  destruct (ConstantPool.get k _) as [value| | |]; simpl; try reflexivity.
  rewrite <- !app_assoc. reflexivity.
Qed.

Lemma resolvable_row (index : nat) (c : Chunk.t) :
  resolvable c -> (index < get_length c)%nat ->
  exists row,
    disassemble_at [] index c = Returned row /\ line_count row = 1%nat.
Proof.
  intros Hc Hindex. destruct (Hc index Hindex) as (instr & Hread & Hoperand).
  destruct (decide (get_opcode instr = Constant)) as [Hop|Hop].
  - destruct (Hoperand Hop) as (k & value & Hk & Hvalue).
    destruct (row_constant [] index c instr k value Hread Hop Hk Hvalue)
      as (code & _ & ->).
    eexists. split; reflexivity.
  - destruct (row_plain [] index c instr Hread Hop) as (code & name & _ & _ & ->).
    eexists. split; reflexivity.
Qed.

Lemma line_count_app (a b : ostream) :
  line_count (a ++ b) = (line_count a + line_count b)%nat.
Proof. unfold line_count. rewrite List.filter_app, length_app. reflexivity. Qed.

Lemma disassemble_fold (c : Chunk.t) (indices : list nat) :
  forall (rows : list ostream) (out : ostream),
    Forall2 (fun index row => disassemble_at [] index c = Returned row)
            indices rows ->
    foldl (fun out index => out ← out; disassemble_at out index c)
          (Returned out) indices
    = Returned (out ++ concat rows).
Proof.
  induction indices as [|index rest IH]; intros rows out Hrows.
  - apply Forall2_nil_inv_l in Hrows as ->. simpl. rewrite app_nil_r. reflexivity.
  - apply Forall2_cons_inv_l in Hrows as (row & rows' & Hrow & Hrest & ->).
    simpl. rewrite disassemble_at_appends, Hrow. simpl.
    rewrite app_assoc. apply IH. exact Hrest.
Qed.

Lemma resolvable_rows (c : Chunk.t) (from count : nat) :
  resolvable c -> (from + count <= get_length c)%nat ->
  exists rows,
    Forall2 (fun index row => disassemble_at [] index c = Returned row)
            (seq from count) rows /\
    Forall (fun row => line_count row = 1%nat) rows /\
    line_count (concat rows) = count.
Proof.
  intros Hc. revert from. induction count as [|count IH]; intros from Hle.
  - exists []. repeat split; constructor.
  - destruct (resolvable_row from c Hc ltac:(lia)) as (row & Hrow & Hone).
    destruct (IH (S from) ltac:(lia)) as (rows & Hrows & Hones & Hcount).
    exists (row :: rows). split; [constructor; assumption|].
    split; [constructor; assumption|].
    simpl. rewrite line_count_app, Hone, Hcount. reflexivity.
Qed.

Lemma test_chunk_resolvable : resolvable test_chunk.
Proof.
  intros index Hindex. change (get_length test_chunk) with 7%nat in Hindex.
  do 7 (destruct index as [|index];
        [eexists; split; [reflexivity|];
         intros Hop; try discriminate Hop;
         eexists _, _; split; reflexivity|]).
  lia.
Qed.

(** X8. The row of an instruction that is not [Constant] is the four
    common fields (offset in 6 digits, line in 5, the word in 32 binary
    digits, the opcode's name right-aligned in 10 characters), each followed
    by two spaces, and the line terminator; the constant pool is not looked
    at. *)
Theorem disassemble_plain_row (out : ostream) (index : nat) (c : Chunk.t)
    (instr : Instruction.t) :
  read index c = Returned instr ->
  get_opcode instr <> Constant ->
  exists code name,
    codes_ c !! index = Some code /\
    to_string (get_opcode instr) = Returned name /\
    forall pool,
      disassemble_at out index
        {| name_ := name_ c; lines_ := lines_ c; codes_ := codes_ c;
           constant_pool_ := pool |}
      = Returned (out ++ [Str (format_zero_dec 6 (Z.of_nat index)); Str "  ";
                          Str (format_zero_dec 5 (get_line instr)); Str "  ";
                          Str (format_zero_bin 32 code); Str "  ";
                          Str (align_right " " 10 name); Str "  "; Endl]).
Proof.
  intros Hread Hop.
  destruct (row_plain out index c instr Hread Hop) as (code & name & Hcode & Hname & _).
  exists code, name. split; [exact Hcode|]. split; [exact Hname|].
  intros pool.
  destruct (row_plain out index
              {| name_ := name_ c; lines_ := lines_ c; codes_ := codes_ c;
                 constant_pool_ := pool |} instr Hread Hop)
    as (code' & name' & Hcode' & Hname' & ->).
  simpl in Hcode'. rewrite Hcode in Hcode'. injection Hcode' as <-.
  rewrite Hname in Hname'. injection Hname' as <-. reflexivity.
Qed.

Lemma disassemble_plain_row_witness :
  exists code name,
    codes_ test_chunk !! 4%nat = Some code /\
    to_string Divide = Returned name /\
    forall pool,
      disassemble_at [] 4
        {| name_ := name_ test_chunk; lines_ := lines_ test_chunk;
           codes_ := codes_ test_chunk; constant_pool_ := pool |}
      = Returned [Str "000004"; Str "  "; Str (format_zero_dec 5 5); Str "  ";
                  Str (format_zero_bin 32 code); Str "  ";
                  Str (align_right " " 10 name); Str "  "; Endl].
Proof.
  apply (disassemble_plain_row [] 4 test_chunk (Instruction.new 5 Divide)).
  - reflexivity.
  - discriminate.
Defined.

(** X9. [disassemble(out, index)] throws the range error when [index] is
    not below the length of the chunk, and also when the row is a [Constant]
    whose operand is not below the length of the pool; when the word at
    [index] does not decode it ends the way [read] does. *)
Theorem disassemble_at_faults (out : ostream) (index : nat) (c : Chunk.t) :
  ((get_length c <= index)%nat ->
   disassemble_at out index c = Thrown out_of_range) /\
  (forall instr k,
     read index c = Returned instr ->
     get_opcode instr = Constant ->
     get_constant_index instr = Returned k ->
     (length (ConstantPool.constants_ (get_constant_pool c)) <= k)%nat ->
     disassemble_at out index c = Thrown out_of_range) /\
  ((index < get_length c)%nat ->
   forall msg, read index c = Failed msg ->
   disassemble_at out index c = Failed msg).
Proof.
  unfold disassemble_at. split; [|split].
  - intros Hindex. rewrite (at_ge (codes_ c)) by exact Hindex. reflexivity.
  - intros instr k Hread Hop Hk Hpool.
    destruct (read_inv _ _ _ Hread) as (line & code & _ & Hcode & _).
    unfold at_ at 1. rewrite Hcode. simpl. rewrite Hread. simpl.
    rewrite Hop. simpl. rewrite Hk. simpl.
    unfold ConstantPool.get. rewrite at_ge by exact Hpool. reflexivity.
  - intros Hindex msg Hread. unfold get_length in Hindex.
    destruct (lookup_lt_is_Some_2 (codes_ c) index Hindex) as [code Hcode].
    unfold at_ at 1. rewrite Hcode. simpl. rewrite Hread. reflexivity.
Qed.

(** X10. What [disassemble(out, index)] writes is appended to the stream
    and is the same whatever the stream already holds. *)
Theorem disassemble_at_independent (out out' : ostream) (index : nat)
    (c : Chunk.t) :
  disassemble_at out index c = Returned out' ->
  exists row,
    out' = out ++ row /\
    forall other, disassemble_at other index c = Returned (other ++ row).
Proof.
  rewrite disassemble_at_appends.
  destruct (disassemble_at [] index c) as [row| | |] eqn:Hrow; simpl;
    try discriminate.
  intros H. injection H as <-. exists row. split; [reflexivity|].
  intros other. rewrite disassemble_at_appends, Hrow. reflexivity.
Qed.

Lemma disassemble_at_independent_witness :
  exists row,
    [Str "000006"; Str "  "; Str "00007"; Str "  ";
     Str "00000000000000000000000000000000"; Str "  ";
     Str "    RETURN"; Str "  "; Endl] = [] ++ row /\
    forall other, disassemble_at other 6 test_chunk = Returned (other ++ row).
Proof.
  apply (disassemble_at_independent [] _ 6 test_chunk). reflexivity.
Defined.

(** X11. For a chunk in which every instruction decodes and every
    [Constant] operand is an index into the pool, [disassemble(out)] returns:
    it writes the header [== name ==] and then the row of every offset in
    order, one line each, after what the stream held. *)
Theorem disassemble_lines (out : ostream) (c : Chunk.t) :
  resolvable c ->
  exists rows,
    disassemble out c
    = Returned (out ++ [Str ("== " +:+ get_name c +:+ " =="); Endl]
                    ++ concat rows) /\
    Forall2 (fun index row => disassemble_at [] index c = Returned row)
            (seq 0 (get_length c)) rows /\
    Forall (fun row => line_count row = 1%nat) rows /\
    line_count (concat rows) = get_length c.
Proof.
  intros Hc.
  destruct (resolvable_rows c 0 (get_length c) Hc ltac:(lia))
    as (rows & Hrows & Hones & Hcount).
  exists rows. split; [|split; [exact Hrows|split; [exact Hones|exact Hcount]]].
  unfold disassemble.
  rewrite (disassemble_fold c _ rows _ Hrows), <- !app_assoc. reflexivity.
Qed.

Lemma disassemble_lines_witness :
  exists rows,
    disassemble [] test_chunk
    = Returned ([] ++ [Str ("== " +:+ get_name test_chunk +:+ " =="); Endl]
                   ++ concat rows) /\
    Forall2 (fun index row => disassemble_at [] index test_chunk = Returned row)
            (seq 0 (get_length test_chunk)) rows /\
    Forall (fun row => line_count row = 1%nat) rows /\
    line_count (concat rows) = get_length test_chunk.
Proof. apply (disassemble_lines [] test_chunk). exact test_chunk_resolvable. Defined.

End Disassembly.

(** ** Producers *)

Section Producer.
Import Instruction Chunk.

Lemma get_old (value : float) (p : ConstantPool.t) (k : nat) (v : float) :
  ConstantPool.get k p = Returned v ->
  ConstantPool.get k (ConstantPool.add value p).1 = Returned v.
Proof.
  unfold ConstantPool.get, ConstantPool.add, at_. simpl. intros H.
  destruct (ConstantPool.constants_ p !! k) as [x|] eqn:Hk; [|discriminate].
  rewrite (lookup_app_l_Some _ _ _ _ Hk). exact H.
Qed.

(** X12. The producer operations keep a chunk disassemblable and
    runnable as far as decoding goes: a new chunk has nothing to resolve,
    interning a constant keeps every instruction resolvable, and so does
    writing a well-formed instruction whose operand, if it is [Constant], is
    an index into the pool at that time. *)
Theorem producer_keeps_resolvable :
  (forall name, resolvable (Chunk.new name)) /\
  (forall value c, resolvable c -> resolvable (add_constant value c).1) /\
  (forall i c c',
     paired c -> resolvable c -> well_formed i ->
     (opcode_ i = Constant ->
      exists k, get_constant_index i = Returned k /\
                (k < length (ConstantPool.constants_ (get_constant_pool c)))%nat) ->
     write i c = Returned c' ->
     resolvable c').
Proof.
  split; [|split].
  - intros name index Hindex. unfold get_length in Hindex. simpl in Hindex. lia.
  - intros value c Hc index Hindex.
    destruct (Hc index Hindex) as (instr & Hread & Hoperand).
    exists instr. split; [exact Hread|].
    intros Hop. destruct (Hoperand Hop) as (k & v & Hk & Hv).
    exists k, v. split; [exact Hk|]. apply get_old. exact Hv.
  - intros i c c' Hpaired Hc Hi Hoperand Hw index Hindex.
    destruct (write_paired i c c' Hpaired Hw) as (_ & Hlen & Hpool).
    destruct (decide (index < get_length c)%nat) as [Hold|Hnew].
    + rewrite (write_keeps i c c' index Hpaired Hw Hold).
      unfold get_constant_pool. rewrite Hpool. apply Hc. exact Hold.
    + assert (index = get_length c) as -> by lia.
      destruct (write_then_read i c Hpaired Hi) as (c2 & i' & Hw2 & Hread & Hsame).
      rewrite Hw in Hw2. injection Hw2 as <-.
      exists i'. split; [exact Hread|].
      destruct Hsame as (Hop & _ & Hidx). intros Hop'.
      rewrite <- Hop in Hop'. destruct (Hidx Hop') as (n & Hn & Hn').
      destruct (Hoperand Hop') as (k & Hk & Hlt).
      unfold get_constant_index in *. rewrite Hn in Hk. rewrite Hn'.
      injection Hk as ->.
      unfold get_constant_pool. rewrite Hpool.
      destruct (lookup_lt_is_Some_2 _ _ Hlt) as [v Hv].
      exists k, v. split; [reflexivity|].
      unfold ConstantPool.get, at_. unfold get_constant_pool in Hv.
      rewrite Hv. reflexivity.
Qed.

(** X13. Interning a value and writing the [Constant] that refers to it,
    the way [main] does, on a chunk whose pool has fewer than [2 ^ 24]
    entries: the chunk is one instruction longer, the instruction read back
    at the new offset is a [Constant] whose operand is the new slot, and
    [step] on it pushes exactly the interned value and writes nothing. *)
Theorem write_constant_then_step
    (line : Z) (value : float) (c : Chunk.t) (out : ostream)
    (ip : nat) (stack : list float) :
  paired c ->
  Z.of_nat (length (ConstantPool.constants_ (get_constant_pool c))) < 2 ^ 24 ->
  exists c' instr,
    write_constant line value c = Returned c' /\
    get_length c' = S (get_length c) /\
    read (get_length c) c' = Returned instr /\
    get_opcode instr = Constant /\ get_line instr = line /\
    get_constant_index instr
    = Returned (length (ConstantPool.constants_ (get_constant_pool c))) /\
    VirtualMachine.step out instr (VirtualMachine.mk c' ip stack)
    = Returned (VirtualMachine.mk c' ip (stack ++ [value]), out).
Proof.
  intros Hpaired Hsmall. unfold write_constant, add_constant, ConstantPool.add.
  simpl. rewrite length_app. simpl.
  set (n := length (ConstantPool.constants_ (get_constant_pool c))) in *.
  replace (n + 1 - 1)%nat with n by lia.
  set (c1 := {| name_ := name_ c; lines_ := lines_ c; codes_ := codes_ c;
                constant_pool_ :=
                  {| ConstantPool.constants_ :=
                       ConstantPool.constants_ (get_constant_pool c) ++ [value] |} |}).
  assert (wrap32 (Z.of_nat n) = Z.of_nat n) as ->
    by (unfold wrap32; apply Z.mod_small; lia).
  assert (well_formed (new_indexed line Constant (Z.of_nat n))) as Hwf
    by (apply new_indexed_well_formed; discriminate).
  destruct (write_then_read _ c1 Hpaired Hwf) as (c' & instr & Hw & Hread & Hsame).
  destruct (write_paired _ c1 c' Hpaired Hw) as (_ & Hlen & Hpool).
  destruct Hsame as (Hop & Hline & Hidx). simpl in Hop, Hline.
  destruct (Hidx eq_refl) as (k & Hk & Hk'). simpl in Hk.
  rewrite wrap24_small in Hk by lia. injection Hk as <-.
  exists c', instr. split; [exact Hw|]. split; [exact Hlen|].
  split; [exact Hread|]. split; [symmetry; exact Hop|].
  split; [symmetry; exact Hline|].
  assert (get_constant_index instr = Returned n) as Hn.
  { unfold get_constant_index. rewrite Hk', Nat2Z.id. reflexivity. }
  split; [exact Hn|].
  unfold VirtualMachine.step. rewrite <- Hop. simpl. rewrite Hn. simpl.
  unfold get_constant_pool, ConstantPool.get. rewrite Hpool. simpl.
  rewrite at_snoc_new by reflexivity. reflexivity.
Qed.

Lemma write_constant_then_step_witness :
  exists c' instr,
    write_constant 8 2.5%float test_chunk = Returned c' /\
    get_length c' = 8%nat /\
    read 7 c' = Returned instr /\
    get_opcode instr = Constant /\ get_line instr = 8 /\
    get_constant_index instr = Returned 3%nat /\
    VirtualMachine.step [] instr (VirtualMachine.mk c' 7 [1.5%float])
    = Returned (VirtualMachine.mk c' 7 [1.5%float; 2.5%float], []).
Proof.
  apply (write_constant_then_step 8 2.5%float test_chunk [] 7 [1.5%float]).
  - reflexivity.
  - vm_compute. reflexivity.
Defined.

End Producer.

(** ** Single steps *)

Section Steps.
Import Instruction VirtualMachine.

Lemma last_removelast {A} (l : list A) (x : A) :
  last l = Some x -> l = removelast l ++ [x].
Proof.
  intros Hlast. destruct l as [|y l] using rev_ind; [discriminate|].
  rewrite last_snoc in Hlast. injection Hlast as ->.
  rewrite removelast_last. reflexivity.
Qed.

Lemma pop_inv (vm vm' : VirtualMachine.t) (value : float) :
  pop_ vm = Returned (value, vm') ->
  stack_ vm = stack_ vm' ++ [value] /\
  chunk_ vm' = chunk_ vm /\ ip_ vm' = ip_ vm.
Proof.
  unfold pop_. destruct (last (stack_ vm)) as [x|] eqn:Hlast; [|discriminate].
  intros H. injection H as <- <-. simpl.
  split; [apply last_removelast; exact Hlast|]. split; reflexivity.
Qed.

Lemma pop_snoc (chunk : Chunk.t) (ip : nat) (stack : list float) (value : float) :
  pop_ (VirtualMachine.mk chunk ip (stack ++ [value]))
  = Returned (value, VirtualMachine.mk chunk ip stack).
Proof. unfold pop_. simpl. rewrite last_snoc, removelast_last. reflexivity. Qed.

(** X14. What a returning [step] does to the machine, by opcode: the
    chunk and the instruction pointer are never touched; [Constant] makes
    the stack one deeper, [Negate] keeps its depth, the four binary
    operations and [Return] make it one shallower; only [Return] writes,
    and it writes the value that was on top and a line terminator. *)
Theorem step_effect (out out' : ostream) (instr : Instruction.t)
    (vm vm' : VirtualMachine.t) :
  step out instr vm = Returned (vm', out') ->
  chunk_ vm' = chunk_ vm /\ ip_ vm' = ip_ vm /\
  match get_opcode instr with
  | Constant => length (stack_ vm') = S (length (stack_ vm)) /\ out' = out
  | Negate =>
      (0 < length (stack_ vm))%nat /\
      length (stack_ vm') = length (stack_ vm) /\ out' = out
  | Add | Subtract | Multiply | Divide =>
      (1 < length (stack_ vm))%nat /\
      S (length (stack_ vm')) = length (stack_ vm) /\ out' = out
  | Return =>
      exists value,
        stack_ vm = stack_ vm' ++ [value] /\
        out' = out << Num value << Endl
  | _Count => False
  end.
Proof.
  unfold step. destruct (get_opcode instr); try discriminate.
  2: {
    destruct (get_constant_index instr) as [k| | |]; simpl; try discriminate.
    destruct (ConstantPool.get k _) as [v| | |]; simpl; try discriminate.
    intros H. injection H as <- <-. simpl. rewrite length_app. simpl.
    repeat split; lia.
  }
  all: destruct (pop_ vm) as [[v1 vm1]| | |] eqn:H1; simpl; try discriminate;
    destruct (pop_inv _ _ _ H1) as (Hs1 & Hc1 & Hi1).
  1: { intros H. injection H as <- <-. repeat split; try assumption.
       exists v1. split; [exact Hs1 | reflexivity]. }
  5: { intros H. injection H as <- <-. simpl. rewrite Hs1, !length_app. simpl.
       repeat split; try assumption; lia. }
  all: destruct (pop_ vm1) as [[v2 vm2]| | |] eqn:H2; simpl; try discriminate;
    destruct (pop_inv _ _ _ H2) as (Hs2 & Hc2 & Hi2);
    intros H; injection H as <- <-; simpl;
    rewrite Hs1, Hs2, !length_app; simpl;
    repeat split; try congruence; lia.
Qed.

Lemma step_effect_witness :
  chunk_ (VirtualMachine.mk test_chunk 6 []) = test_chunk /\
  ip_ (VirtualMachine.mk test_chunk 6 []) = 6%nat /\
  exists value,
    [2.5%float] = [] ++ [value] /\
    [Num 2.5%float; Endl] = [] << Num value << Endl.
Proof.
  apply (step_effect [] [Num 2.5%float; Endl] (Instruction.new 7 Return)
           (VirtualMachine.mk test_chunk 6 [2.5%float])
           (VirtualMachine.mk test_chunk 6 [])).
  reflexivity.
Defined.

(** X15. [step] only looks at the top of the stack: whatever it does on
    a stack it does, with the same result on top and the same output, when
    more values lie underneath, and those are left as they were. *)
Theorem step_frame (below : list float) (out out' : ostream)
    (instr : Instruction.t) (chunk chunk' : Chunk.t) (ip ip' : nat)
    (stack stack' : list float) :
  step out instr (VirtualMachine.mk chunk ip stack)
  = Returned (VirtualMachine.mk chunk' ip' stack', out') ->
  step out instr (VirtualMachine.mk chunk ip (below ++ stack))
  = Returned (VirtualMachine.mk chunk' ip' (below ++ stack'), out').
Proof.
  unfold step. destruct (get_opcode instr); try discriminate.
  2: {
    simpl. destruct (get_constant_index instr) as [k| | |]; simpl; try discriminate.
    destruct (ConstantPool.get k _) as [v| | |]; simpl; try discriminate.
    intros H. injection H as <- <- <- <-. unfold push_. simpl.
    rewrite app_assoc. reflexivity.
  }
  all: destruct (pop_ (VirtualMachine.mk chunk ip stack)) as [[v1 vm1]| | |] eqn:H1;
    simpl; try discriminate;
    destruct (pop_inv _ _ _ H1) as (Hs1 & Hc1 & Hi1);
    destruct vm1 as [c1 ip1 s1]; simpl in Hs1, Hc1, Hi1; subst stack c1 ip1;
    rewrite app_assoc, pop_snoc; simpl.
  1: { intros H. injection H as <- <- <- <-. reflexivity. }
  5: { intros H. injection H as <- <- <- <-. unfold push_. simpl.
       rewrite app_assoc. reflexivity. }
  all: destruct (pop_ (VirtualMachine.mk chunk ip s1)) as [[v2 vm2]| | |] eqn:H2;
    simpl; try discriminate;
    destruct (pop_inv _ _ _ H2) as (Hs2 & Hc2 & Hi2);
    destruct vm2 as [c2 ip2 s2]; simpl in Hs2, Hc2, Hi2; subst s1 c2 ip2;
    rewrite app_assoc, pop_snoc; simpl;
    intros H; injection H as <- <- <- <-; unfold push_; simpl;
    rewrite app_assoc; reflexivity.
Qed.

Lemma step_frame_witness :
  step [] (Instruction.new 5 Divide)
    (VirtualMachine.mk test_chunk 4 ([7%float; 8%float] ++ [1%float; 4%float]))
  = Returned (VirtualMachine.mk test_chunk 4 ([7%float; 8%float] ++ [0.25%float]), []).
Proof.
  apply (step_frame [7%float; 8%float] [] [] (Instruction.new 5 Divide)
           test_chunk test_chunk 4 4 [1%float; 4%float] [0.25%float]).
  reflexivity.
Defined.

(** X16. [step] on a [Constant]: it pushes the pool entry at the operand
    and writes nothing; it throws the range error when the operand is not
    below the length of the pool, leaving no new state; and it is undefined
    for an instruction built without an operand. *)
Theorem step_constant (out : ostream) (instr : Instruction.t)
    (vm : VirtualMachine.t) :
  get_opcode instr = Constant ->
  (forall k value,
     get_constant_index instr = Returned k ->
     ConstantPool.constants_ (Chunk.get_constant_pool (chunk_ vm)) !! k
     = Some value ->
     step out instr vm = Returned (push_ value vm, out)) /\
  (forall k,
     get_constant_index instr = Returned k ->
     (length (ConstantPool.constants_ (Chunk.get_constant_pool (chunk_ vm)))
      <= k)%nat ->
     step out instr vm = Thrown out_of_range) /\
  (index_ instr = None -> step out instr vm = Undefined).
Proof.
  intros Hop. unfold step. rewrite Hop. split; [|split].
  - intros k value Hk Hvalue. rewrite Hk. simpl.
    unfold ConstantPool.get, at_. rewrite Hvalue. reflexivity.
  - intros k Hk Hlen. rewrite Hk. simpl.
    unfold ConstantPool.get. rewrite at_ge by exact Hlen. reflexivity.
  - intros Hnone. unfold get_constant_index. rewrite Hnone. reflexivity.
Qed.

Lemma step_constant_witness :
  (forall k value,
     get_constant_index (new_indexed 1 Constant 2) = Returned k ->
     ConstantPool.constants_ (Chunk.get_constant_pool test_chunk) !! k
     = Some value ->
     step [] (new_indexed 1 Constant 2) (VirtualMachine.new test_chunk)
     = Returned (push_ value (VirtualMachine.new test_chunk), [])) /\
  (forall k,
     get_constant_index (new_indexed 1 Constant 2) = Returned k ->
     (length (ConstantPool.constants_ (Chunk.get_constant_pool test_chunk))
      <= k)%nat ->
     step [] (new_indexed 1 Constant 2) (VirtualMachine.new test_chunk)
     = Thrown out_of_range) /\
  (index_ (new_indexed 1 Constant 2) = None ->
   step [] (new_indexed 1 Constant 2) (VirtualMachine.new test_chunk)
   = Undefined).
Proof.
  apply (step_constant [] (new_indexed 1 Constant 2)
           (VirtualMachine.new test_chunk)).
  reflexivity.
Defined.

(** X17. With [value] on top of the stack, [step] on [Return] pops it and
    writes it followed by a line terminator, and [step] on [Negate] puts
    its negation in its place and writes nothing; neither looks at the
    instruction's line or operand.  [step] on the sentinel opcode ends in
    [FAIL] whatever the stack. *)
Theorem step_return_negate (value : float) (out : ostream) (line : Z)
    (operand : option Z) (vm : VirtualMachine.t) :
  step out (Instruction.mk line Return operand) (push_ value vm)
  = Returned (vm, out << Num value << Endl) /\
  step out (Instruction.mk line Negate operand) (push_ value vm)
  = Returned (push_ (- value)%float vm, out) /\
  step out (Instruction.mk line _Count operand) vm = Failed "invalid opcode".
Proof.
  unfold step. simpl. rewrite !pop_push. repeat split.
Qed.

End Steps.

(** ** The run loop *)

Section Running.
Import Instruction VirtualMachine.

Lemma run_loop_fuel (fuel : nat) :
  forall (more : nat) (out : ostream) (vm : VirtualMachine.t),
    (Chunk.get_length (chunk_ vm) - ip_ vm <= fuel)%nat ->
    (fuel <= more)%nat ->
    run_loop more out vm = run_loop fuel out vm.
Proof.
  induction fuel as [|fuel IH]; intros more out vm Hneed Hmore.
  - destruct more as [|more]; [reflexivity|]. simpl.
    destruct (Nat.ltb_spec (ip_ vm) (Chunk.get_length (chunk_ vm))); [lia|].
    reflexivity.
  - destruct more as [|more]; [lia|]. simpl.
    destruct (Nat.ltb_spec (ip_ vm) (Chunk.get_length (chunk_ vm))); [|reflexivity].
    unfold DEBUG_TRACE_EXECUTION.
    destruct (dump_ out vm) as [out1| | |]; simpl; try reflexivity.
    destruct (Chunk.read (ip_ vm) (chunk_ vm)) as [instr| | |]; simpl;
      try reflexivity.
    destruct (step out1 instr vm) as [[vm1 out2]| | |] eqn:Hstep; simpl;
      try reflexivity.
    apply IH; [|lia]. simpl.
    destruct (step_keeps _ _ _ _ _ Hstep) as [-> ->]. lia.
Qed.

Lemma run_done (out : ostream) (vm : VirtualMachine.t) :
  (Chunk.get_length (chunk_ vm) <= ip_ vm)%nat ->
  run out vm = Some (Returned (Ok, vm, out)).
Proof.
  intros Hend. unfold run.
  replace (Chunk.get_length (chunk_ vm) - ip_ vm)%nat with 0%nat by lia.
  simpl. destruct (Nat.ltb_spec (ip_ vm) (Chunk.get_length (chunk_ vm))); [lia|].
  reflexivity.
Qed.

(** one turn of the loop that goes through, and the rest of the run *)
Lemma run_next (out out1 out2 : ostream) (instr : Instruction.t)
    (vm vm1 : VirtualMachine.t) :
  (ip_ vm < Chunk.get_length (chunk_ vm))%nat ->
  dump_ out vm = Returned out1 ->
  Chunk.read (ip_ vm) (chunk_ vm) = Returned instr ->
  step out1 instr vm = Returned (vm1, out2) ->
  run out vm = run out2 (advanced vm1).
Proof.
  intros Hlt Hdump Hread Hstep. unfold run.
  destruct (step_keeps _ _ _ _ _ Hstep) as [Hc Hi].
  destruct (Chunk.get_length (chunk_ vm) - ip_ vm)%nat as [|fuel] eqn:Hfuel; [lia|].
  simpl. destruct (Nat.ltb_spec (ip_ vm) (Chunk.get_length (chunk_ vm))); [|lia].
  unfold DEBUG_TRACE_EXECUTION. rewrite Hdump. simpl. rewrite Hread. simpl.
  rewrite Hstep. simpl. fold (advanced vm1).
  apply run_loop_fuel; simpl; rewrite Hc, Hi; lia.
Qed.

(** a turn of the loop that does not go through ends the run the same way *)
Lemma run_fault (out : ostream) (vm : VirtualMachine.t) :
  (ip_ vm < Chunk.get_length (chunk_ vm))%nat ->
  forall fault : outcome (VirtualMachine.t * ostream),
    (forall r, fault <> Returned r) ->
    (out1 ← dump_ out vm;
     instr ← Chunk.read (ip_ vm) (chunk_ vm);
     step out1 instr vm) = fault ->
    run out vm
    = Some (match fault with
            | Returned _ => Undefined
            | Failed msg => Failed msg
            | Thrown e => Thrown e
            | Undefined => Undefined
            end).
Proof.
  intros Hlt fault Hfault Hbody. unfold run.
  destruct (Chunk.get_length (chunk_ vm) - ip_ vm)%nat as [|fuel] eqn:Hfuel; [lia|].
  simpl. destruct (Nat.ltb_spec (ip_ vm) (Chunk.get_length (chunk_ vm))); [|lia].
  unfold DEBUG_TRACE_EXECUTION.
  destruct (dump_ out vm) as [out1| | |]; simpl in *;
    try (subst fault; reflexivity).
  destruct (Chunk.read (ip_ vm) (chunk_ vm)) as [instr| | |]; simpl in *;
    try (subst fault; reflexivity).
  destruct (step out1 instr vm) as [[vm1 out2]| | |]; simpl in *;
    try (subst fault; reflexivity).
  exfalso. apply (Hfault (vm1, out2)). symmetry. exact Hbody.
Qed.

Lemma fold_stack_items (stack : list float) :
  forall out : ostream,
    foldl (fun out value => out << Num value << Str " ") out stack
    = out ++ stack_items stack.
Proof.
  induction stack as [|value rest IH]; intros out; simpl.
  - rewrite app_nil_r. reflexivity.
  - rewrite IH, <- !app_assoc. reflexivity.
Qed.

Lemma dump_trace (out : ostream) (vm : VirtualMachine.t) :
  dump_ out vm
  = (row ← Chunk.disassemble_at [] (ip_ vm) (chunk_ vm);
     Returned (out ++ [Str "[ "] ++ stack_items (stack_ vm)
                   ++ [Str "]"; Endl] ++ row)).
Proof.
  unfold dump_. rewrite disassemble_at_appends, fold_stack_items.
  destruct (Chunk.disassemble_at [] (ip_ vm) (chunk_ vm)); simpl; try reflexivity.
  rewrite <- !app_assoc. reflexivity.
Qed.

Lemma step_appends (out out' : ostream) (instr : Instruction.t)
    (vm vm' : VirtualMachine.t) :
  step out instr vm = Returned (vm', out') -> exists written, out' = out ++ written.
Proof.
  unfold step. destruct (get_opcode instr); try discriminate.
  2: {
    destruct (get_constant_index instr) as [k| | |]; simpl; try discriminate.
    destruct (ConstantPool.get k _) as [v| | |]; simpl; try discriminate.
    intros H. injection H as _ <-. exists []. rewrite app_nil_r. reflexivity.
  }
  all: destruct (pop_ vm) as [[v1 vm1]| | |]; simpl; try discriminate.
  1: { intros H. injection H as _ <-. exists [Num v1; Endl].
       rewrite <- app_assoc. reflexivity. }
  5: { intros H. injection H as _ <-. exists []. rewrite app_nil_r. reflexivity. }
  all: destruct (pop_ vm1) as [[v2 vm2]| | |]; simpl; try discriminate;
    intros H; injection H as _ <-; exists []; rewrite app_nil_r; reflexivity.
Qed.

(** Either the next turn of the loop goes through, or the run ends there
    without a result. *)
Lemma run_cases (out : ostream) (vm : VirtualMachine.t) :
  (ip_ vm < Chunk.get_length (chunk_ vm))%nat ->
  (exists out1 instr vm1 out2,
     dump_ out vm = Returned out1 /\
     Chunk.read (ip_ vm) (chunk_ vm) = Returned instr /\
     step out1 instr vm = Returned (vm1, out2) /\
     run out vm = run out2 (advanced vm1)) \/
  (exists o, run out vm = Some o /\ forall r, o <> Returned r).
Proof.
  intros Hlt.
  destruct (out1 ← dump_ out vm;
            instr ← Chunk.read (ip_ vm) (chunk_ vm);
            step out1 instr vm) as [[vm1 out2]|msg|e|] eqn:Hbody.
  - left.
    destruct (dump_ out vm) as [out1| | |] eqn:Hdump; simpl in Hbody;
      try discriminate.
    destruct (Chunk.read (ip_ vm) (chunk_ vm)) as [instr| | |] eqn:Hread;
      simpl in Hbody; try discriminate.
    exists out1, instr, vm1, out2. repeat split; try assumption.
    apply (run_next out out1 out2 instr vm vm1 Hlt Hdump Hread Hbody).
  - right. exists (Failed msg). split; [|discriminate].
    apply (run_fault out vm Hlt (Failed msg)); [discriminate | exact Hbody].
  - right. exists (Thrown e). split; [|discriminate].
    apply (run_fault out vm Hlt (Thrown e)); [discriminate | exact Hbody].
  - right. exists Undefined. split; [|discriminate].
    apply (run_fault out vm Hlt Undefined); [discriminate | exact Hbody].
Qed.

Lemma run_post (need : nat) :
  forall (out out' : ostream) (vm vm' : VirtualMachine.t) (result : Result),
    (Chunk.get_length (chunk_ vm) - ip_ vm <= need)%nat ->
    run out vm = Some (Returned (result, vm', out')) ->
    result = Ok /\
    chunk_ vm' = chunk_ vm /\
    ip_ vm' = Nat.max (ip_ vm) (Chunk.get_length (chunk_ vm)) /\
    exists written, out' = out ++ written.
Proof.
  induction need as [|need IH]; intros out out' vm vm' result Hneed Hrun.
  - rewrite run_done in Hrun by lia. injection Hrun as <- <- <-.
    repeat split; [lia|]. exists []. rewrite app_nil_r. reflexivity.
  - destruct (Nat.ltb_spec (ip_ vm) (Chunk.get_length (chunk_ vm))) as [Hlt|Hge].
    2: { rewrite run_done in Hrun by lia. injection Hrun as <- <- <-.
         repeat split; [lia|]. exists []. rewrite app_nil_r. reflexivity. }
    destruct (run_cases out vm Hlt)
      as [(out1 & instr & vm1 & out2 & Hdump & Hread & Hstep & Hnext)
         |(o & Ho & Hfault)].
    2: { rewrite Ho in Hrun. injection Hrun as ->. exfalso. eapply Hfault. reflexivity. }
    rewrite Hnext in Hrun.
    destruct (step_keeps _ _ _ _ _ Hstep) as [Hc Hi].
    destruct (IH out2 out' (advanced vm1) vm' result) as (Hr & Hc' & Hi' & w3 & Hw3);
      [simpl; rewrite Hc, Hi; lia | exact Hrun |].
    simpl in Hc', Hi'. rewrite Hc in Hc', Hi'. rewrite Hi in Hi'.
    split; [exact Hr|]. split; [exact Hc'|]. split; [lia|].
    destruct (step_appends _ _ _ _ _ Hstep) as [w2 Hw2].
    rewrite dump_trace in Hdump.
    destruct (Chunk.disassemble_at [] (ip_ vm) (chunk_ vm)) as [row| | |];
      simpl in Hdump; try discriminate.
    injection Hdump as <-. subst out2 out'.
    eexists. rewrite <- !app_assoc. reflexivity.
Qed.

(** X18. When [run] returns, the result is [Ok], the chunk is the one it
    started with, the instruction pointer is at the end of the chunk (or
    where it was, if that was already at or past the end), everything
    written went after what the stream held, and running the same machine
    again returns at once with nothing executed or written. *)
Theorem run_stops_at_end (out out' : ostream) (vm vm' : VirtualMachine.t)
    (result : Result) :
  run out vm = Some (Returned (result, vm', out')) ->
  result = Ok /\
  chunk_ vm' = chunk_ vm /\
  ip_ vm' = Nat.max (ip_ vm) (Chunk.get_length (chunk_ vm)) /\
  (exists written, out' = out ++ written) /\
  run out' vm' = Some (Returned (Ok, vm', out')).
Proof.
  intros Hrun.
  destruct (run_post _ out out' vm vm' result (Nat.le_refl _) Hrun)
    as (Hr & Hc & Hi & Hw).
  repeat split; try assumption.
  apply run_done. rewrite Hc, Hi. lia.
Qed.

Lemma run_stops_at_end_witness :
  let vm := VirtualMachine.mk test_chunk 6 [2.5%float] in
  let vm' := VirtualMachine.mk test_chunk 7 [] in
  let out' := [Str "[ "; Num 2.5%float; Str " "; Str "]"; Endl;
               Str "000006"; Str "  "; Str "00007"; Str "  ";
               Str "00000000000000000000000000000000"; Str "  ";
               Str "    RETURN"; Str "  "; Endl;
               Num 2.5%float; Endl] in
  Ok = Ok /\
  chunk_ vm' = chunk_ vm /\
  ip_ vm' = Nat.max (ip_ vm) (Chunk.get_length (chunk_ vm)) /\
  (exists written, out' = [] ++ written) /\
  run out' vm' = Some (Returned (Ok, vm', out')).
Proof.
  intros vm vm' out'.
  apply (run_stops_at_end [] out' vm vm' Ok).
  reflexivity.
Defined.

Lemma dump_resolvable (out : ostream) (vm : VirtualMachine.t) :
  resolvable (chunk_ vm) -> (ip_ vm < Chunk.get_length (chunk_ vm))%nat ->
  exists out1, dump_ out vm = Returned out1.
Proof.
  intros Hc Hlt. rewrite dump_trace.
  destruct (resolvable_row (ip_ vm) (chunk_ vm) Hc Hlt) as (row & -> & _).
  eexists. reflexivity.
Qed.

(** [step] on an instruction read from a resolvable chunk goes through or
    runs out of stack; it neither fails nor throws. *)
Lemma step_resolvable (out : ostream) (instr : Instruction.t)
    (vm : VirtualMachine.t) (index : nat) :
  resolvable (chunk_ vm) -> (index < Chunk.get_length (chunk_ vm))%nat ->
  Chunk.read index (chunk_ vm) = Returned instr ->
  step out instr vm = Undefined \/
  exists vm1 out2, step out instr vm = Returned (vm1, out2).
Proof.
  intros Hc Hlt Hread.
  destruct (Hc index Hlt) as (instr' & Hread' & Hoperand).
  rewrite Hread in Hread'. injection Hread' as <-.
  destruct (read_inv _ _ _ Hread) as (line & code & _ & _ & Hdec).
  destruct (deserialize_inv _ _ _ Hdec) as (Hknown & _).
  unfold step. destruct (get_opcode instr) eqn:Hop;
    try (exfalso; apply Hknown; reflexivity).
  2: { destruct (Hoperand eq_refl) as (k & value & -> & Hvalue). simpl.
       rewrite Hvalue. right. eexists _, _. reflexivity. }
  all: unfold pop_; destruct (last (stack_ vm)) as [v1|]; simpl; [|left; reflexivity];
    try (right; eexists _, _; reflexivity).
  all: destruct (last (removelast (stack_ vm))) as [v2|]; simpl; [|left; reflexivity];
    right; eexists _, _; reflexivity.
Qed.

Lemma run_resolvable_loop (need : nat) :
  forall (out : ostream) (vm : VirtualMachine.t),
    (Chunk.get_length (chunk_ vm) - ip_ vm <= need)%nat ->
    resolvable (chunk_ vm) ->
    run out vm = Some Undefined \/
    exists vm' out', run out vm = Some (Returned (Ok, vm', out')).
Proof.
  induction need as [|need IH]; intros out vm Hneed Hc.
  - right. exists vm, out. apply run_done. lia.
  - destruct (Nat.ltb_spec (ip_ vm) (Chunk.get_length (chunk_ vm))) as [Hlt|Hge].
    2: { right. exists vm, out. apply run_done. lia. }
    destruct (dump_resolvable out vm Hc Hlt) as [out1 Hdump].
    destruct (Hc (ip_ vm) Hlt) as (instr & Hread & _).
    destruct (step_resolvable out1 instr vm (ip_ vm) Hc Hlt Hread)
      as [Hstep|(vm1 & out2 & Hstep)].
    + left. apply (run_fault out vm Hlt Undefined); [discriminate|].
      rewrite Hdump. simpl. rewrite Hread. simpl. exact Hstep.
    + rewrite (run_next out out1 out2 instr vm vm1 Hlt Hdump Hread Hstep).
      destruct (step_keeps _ _ _ _ _ Hstep) as [Hc1 Hi1].
      apply IH; simpl; rewrite Hc1; [rewrite Hi1; lia | exact Hc].
Qed.

(** X19. Over a chunk in which every instruction decodes and every
    [Constant] operand is an index into the pool, [run] never ends in [FAIL]
    and never throws: it returns [Ok], or it pops an empty stack. *)
Theorem run_resolvable (out : ostream) (vm : VirtualMachine.t) :
  resolvable (chunk_ vm) ->
  run out vm = Some Undefined \/
  exists vm' out', run out vm = Some (Returned (Ok, vm', out')).
Proof. intros Hc. apply (run_resolvable_loop _ out vm (Nat.le_refl _) Hc). Qed.

Lemma run_resolvable_witness :
  run [] (VirtualMachine.mk test_chunk 2 []) = Some Undefined \/
  exists vm' out',
    run [] (VirtualMachine.mk test_chunk 2 []) = Some (Returned (Ok, vm', out')).
Proof.
  apply (run_resolvable [] (VirtualMachine.mk test_chunk 2 [])).
  exact test_chunk_resolvable.
Defined.

(** X20. When the instruction at the instruction pointer is not a
    [Constant] and the stack is empty, [run] prints the trace and then pops
    the empty stack: its behaviour is undefined. *)
Theorem run_underflow (out : ostream) (vm : VirtualMachine.t)
    (instr : Instruction.t) :
  Chunk.read (ip_ vm) (chunk_ vm) = Returned instr ->
  get_opcode instr <> Constant ->
  stack_ vm = [] ->
  run out vm = Some Undefined.
Proof.
  intros Hread Hop Hstack.
  destruct (read_inv _ _ _ Hread) as (line & code & _ & Hcode & Hdec).
  destruct (deserialize_inv _ _ _ Hdec) as (Hknown & _).
  assert (ip_ vm < Chunk.get_length (chunk_ vm))%nat as Hlt
    by (apply lookup_lt_Some in Hcode; exact Hcode).
  apply (run_fault out vm Hlt Undefined); [discriminate|].
  rewrite dump_trace.
  destruct (row_plain [] (ip_ vm) (chunk_ vm) instr Hread Hop)
    as (code' & name & _ & _ & ->).
  simpl. rewrite Hread. simpl.
  unfold step, pop_. rewrite Hstack.
  destruct (get_opcode instr); try reflexivity; contradiction.
Qed.

Lemma run_underflow_witness :
  run [] (VirtualMachine.mk test_chunk 2 []) = Some Undefined.
Proof.
  apply (run_underflow [] (VirtualMachine.mk test_chunk 2 [])
           (Instruction.new 3 Add)).
  - reflexivity.
  - discriminate.
  - reflexivity.
Defined.

(** X21. When the word at the instruction pointer does not decode, [run]
    ends the way [read] does, before anything is executed: in [FAIL] for the
    sentinel tag, undefined for a tag of 8 or more. *)
Theorem run_undecodable (out : ostream) (vm : VirtualMachine.t)
    (line code : Z) :
  Chunk.lines_ (chunk_ vm) !! ip_ vm = Some line ->
  Chunk.codes_ (chunk_ vm) !! ip_ vm = Some code ->
  7 <= Z.land code 0xff ->
  run out vm
  = Some (if decide (Z.land code 0xff = 7)
          then Failed "invalid opcode '_COUNT'" else Undefined).
Proof.
  intros Hline Hcode Htag0.
  assert (ip_ vm < Chunk.get_length (chunk_ vm))%nat as Hlt
    by (apply lookup_lt_Some in Hcode; exact Hcode).
  assert (Chunk.read (ip_ vm) (chunk_ vm) = deserialize line code) as Hread.
  { unfold Chunk.read, at_. rewrite Hline, Hcode. reflexivity. }
  assert ((out1 ← dump_ out vm;
           instr ← Chunk.read (ip_ vm) (chunk_ vm);
           step out1 instr vm)
          = (instr ← deserialize line code; Undefined)) as Hbody.
  { rewrite dump_trace. unfold Chunk.disassemble_at, at_.
    rewrite Hcode. simpl. rewrite Hread.
    destruct (deserialize line code) as [instr| | |] eqn:Hdec; try reflexivity.
    destruct (deserialize_inv _ _ _ Hdec) as (Hknown & Htag & _).
    exfalso. rewrite <- Htag in Htag0.
    destruct (get_opcode instr); simpl in Htag0; try lia.
    apply Hknown. reflexivity. }
  unfold deserialize in Hbody.
  destruct (decide (Z.land code 0xff = 7)) as [Heq|Hne].
  - rewrite Heq in Hbody. simpl in Hbody.
    apply (run_fault out vm Hlt (Failed "invalid opcode '_COUNT'"));
      [discriminate | exact Hbody].
  - rewrite static_cast_Opcode_unnamed in Hbody by lia.
    apply (run_fault out vm Hlt Undefined); [discriminate | exact Hbody].
Qed.

Lemma run_undecodable_witness :
  run [] (VirtualMachine.new (Chunk.mk "bad" [1] [7] ConstantPool.new))
  = Some (Failed "invalid opcode '_COUNT'").
Proof.
  apply (run_undecodable [] (VirtualMachine.new (Chunk.mk "bad" [1] [7] ConstantPool.new))
           1 7).
  - reflexivity.
  - reflexivity.
  - vm_compute. discriminate.
Defined.

(** X22. When the instruction at the instruction pointer is a [Constant]
    whose operand is not below the length of the pool, [run] throws the
    range error. *)
Theorem run_constant_out_of_pool (out : ostream) (vm : VirtualMachine.t)
    (instr : Instruction.t) (k : nat) :
  Chunk.read (ip_ vm) (chunk_ vm) = Returned instr ->
  get_opcode instr = Constant ->
  get_constant_index instr = Returned k ->
  (length (ConstantPool.constants_ (Chunk.get_constant_pool (chunk_ vm))) <= k)%nat ->
  run out vm = Some (Thrown out_of_range).
Proof.
  intros Hread Hop Hk Hpool.
  destruct (read_inv _ _ _ Hread) as (line & code & _ & Hcode & _).
  assert (ip_ vm < Chunk.get_length (chunk_ vm))%nat as Hlt
    by (apply lookup_lt_Some in Hcode; exact Hcode).
  apply (run_fault out vm Hlt (Thrown out_of_range)); [discriminate|].
  rewrite dump_trace. unfold Chunk.disassemble_at, at_. rewrite Hcode. simpl.
  rewrite Hread. simpl. rewrite Hop. simpl. rewrite Hk. simpl.
  unfold ConstantPool.get. rewrite at_ge by exact Hpool. reflexivity.
Qed.

Lemma run_constant_out_of_pool_witness :
  run [] (VirtualMachine.new (Chunk.mk "short" [1] [0x301] ConstantPool.new))
  = Some (Thrown out_of_range).
Proof.
  apply (run_constant_out_of_pool []
           (VirtualMachine.new (Chunk.mk "short" [1] [0x301] ConstantPool.new))
           (new_indexed 1 Constant 3) 3).
  - reflexivity.
  - reflexivity.
  - reflexivity.
  - simpl. lia.
Defined.

Lemma line_count_stack_items (stack : list float) :
  line_count (stack_items stack) = 0%nat.
Proof. induction stack as [|value rest IH]; [reflexivity | exact IH]. Qed.

(** X23. The trace of one turn of the loop: after what the stream held
    come ["[ "], every value of the stack from the bottom up, each followed
    by a space, ["]"] and a line terminator, and then the row of the
    instruction at the instruction pointer; the stack part is one line. *)
Theorem trace_format (out row : ostream) (vm : VirtualMachine.t) :
  Chunk.disassemble_at [] (ip_ vm) (chunk_ vm) = Returned row ->
  dump_ out vm
  = Returned (out ++ [Str "[ "]
                  ++ List.flat_map (fun value => [Num value; Str " "]) (stack_ vm)
                  ++ [Str "]"; Endl] ++ row) /\
  line_count ([Str "[ "]
              ++ List.flat_map (fun value => [Num value; Str " "]) (stack_ vm)
              ++ [Str "]"; Endl] ++ row)
  = S (line_count row).
Proof.
  intros Hrow. rewrite dump_trace, Hrow. split; [reflexivity|].
  fold (stack_items (stack_ vm)).
  rewrite !line_count_app, line_count_stack_items. reflexivity.
Qed.

Lemma trace_format_witness :
  dump_ [] (VirtualMachine.mk test_chunk 2 [1.2%float; 3.4%float])
  = Returned ([] ++ [Str "[ "]
                 ++ [Num 1.2%float; Str " "; Num 3.4%float; Str " "]
                 ++ [Str "]"; Endl]
                 ++ [Str "000002"; Str "  "; Str "00003"; Str "  ";
                     Str "00000000000000000000000000000010"; Str "  ";
                     Str "       ADD"; Str "  "; Endl]) /\
  line_count ([Str "[ "]
              ++ [Num 1.2%float; Str " "; Num 3.4%float; Str " "]
              ++ [Str "]"; Endl]
              ++ [Str "000002"; Str "  "; Str "00003"; Str "  ";
                  Str "00000000000000000000000000000010"; Str "  ";
                  Str "       ADD"; Str "  "; Endl])
  = 2%nat.
Proof.
  apply (trace_format []
           [Str "000002"; Str "  "; Str "00003"; Str "  ";
            Str "00000000000000000000000000000010"; Str "  ";
            Str "       ADD"; Str "  "; Endl]
           (VirtualMachine.mk test_chunk 2 [1.2%float; 3.4%float])).
  reflexivity.
Defined.

(** [step] goes through when the stack is as deep as the opcode needs,
    and leaves the depth [depth_step] computes. *)
Lemma step_depth (out : ostream) (instr : Instruction.t)
    (vm : VirtualMachine.t) (depth : nat) :
  (get_opcode instr = Constant ->
   exists k value,
     get_constant_index instr = Returned k /\
     ConstantPool.get k (Chunk.get_constant_pool (chunk_ vm)) = Returned value) ->
  depth_step (get_opcode instr) (length (stack_ vm)) = Some depth ->
  exists vm1 out2,
    step out instr vm = Returned (vm1, out2) /\ length (stack_ vm1) = depth.
Proof.
  intros Hoperand Hdepth. destruct vm as [chunk ip stack]. simpl in *.
  unfold step. destruct (get_opcode instr); simpl in Hdepth; try discriminate.
  2: { destruct (Hoperand eq_refl) as (k & value & -> & Hvalue). simpl.
       rewrite Hvalue. injection Hdepth as <-. eexists _, _.
       split; [reflexivity|]. simpl. rewrite length_app. simpl. lia. }
  all: destruct stack as [|v1 stack _] using rev_ind; [discriminate|];
    rewrite length_app in Hdepth; simpl in Hdepth;
    rewrite Nat.add_1_r in Hdepth; rewrite pop_snoc; simpl.
  1, 6: injection Hdepth as <-; eexists _, _; split; [reflexivity|]; simpl;
    rewrite ?length_app; simpl; lia.
  all: destruct stack as [|v2 stack _] using rev_ind; [discriminate|];
    rewrite length_app in Hdepth; simpl in Hdepth;
    rewrite Nat.add_1_r in Hdepth; rewrite pop_snoc; simpl;
    injection Hdepth as <-; eexists _, _; split; [reflexivity|]; simpl;
    rewrite length_app; simpl; lia.
Qed.

Lemma balanced_loop (count : nat) :
  forall (out : ostream) (vm : VirtualMachine.t) (depth : nat),
    resolvable (chunk_ vm) ->
    (ip_ vm + count = Chunk.get_length (chunk_ vm))%nat ->
    depth_after (chunk_ vm) count (ip_ vm) (length (stack_ vm)) = Some depth ->
    exists vm' out',
      run out vm = Some (Returned (Ok, vm', out')) /\
      length (stack_ vm') = depth.
Proof.
  induction count as [|count IH]; intros out vm depth Hc Hcount Hdepth.
  - simpl in Hdepth. injection Hdepth as <-. exists vm, out.
    split; [apply run_done; lia | reflexivity].
  - assert (ip_ vm < Chunk.get_length (chunk_ vm))%nat as Hlt by lia.
    simpl in Hdepth.
    destruct (Hc (ip_ vm) Hlt) as (instr & Hread & Hoperand).
    rewrite Hread in Hdepth.
    destruct (depth_step (get_opcode instr) (length (stack_ vm))) as [d1|] eqn:Hd1;
      [|discriminate].
    destruct (dump_resolvable out vm Hc Hlt) as [out1 Hdump].
    destruct (step_depth out1 instr vm d1 Hoperand Hd1) as (vm1 & out2 & Hstep & Hlen).
    destruct (step_keeps _ _ _ _ _ Hstep) as [Hc1 Hi1].
    rewrite (run_next out out1 out2 instr vm vm1 Hlt Hdump Hread Hstep).
    apply IH; simpl; rewrite ?Hc1, ?Hi1, ?Hlen; try assumption. lia.
Qed.

(** X24. A static check that is enough for a run to go through: if every
    instruction of the chunk decodes, every [Constant] operand is an index
    into the pool, and counting pushes and pops from the instruction pointer
    to the end never asks for more values than the stack holds, then [run]
    returns [Ok] with the stack at the depth the count predicts and the
    instruction pointer at the end of the chunk. *)
Theorem balanced_run (out : ostream) (vm : VirtualMachine.t) (depth : nat) :
  resolvable (chunk_ vm) ->
  (ip_ vm <= Chunk.get_length (chunk_ vm))%nat ->
  depth_after (chunk_ vm) (Chunk.get_length (chunk_ vm) - ip_ vm) (ip_ vm)
              (length (stack_ vm)) = Some depth ->
  exists vm' out',
    run out vm = Some (Returned (Ok, vm', out')) /\
    length (stack_ vm') = depth /\
    ip_ vm' = Chunk.get_length (chunk_ vm) /\
    chunk_ vm' = chunk_ vm.
Proof.
  intros Hc Hip Hdepth.
  destruct (balanced_loop (Chunk.get_length (chunk_ vm) - ip_ vm) out vm depth
              Hc ltac:(lia) Hdepth)
    as (vm' & out' & Hrun & Hlen).
  exists vm', out'. split; [exact Hrun|]. split; [exact Hlen|].
  destruct (run_post _ out out' vm vm' Ok (Nat.le_refl _) Hrun) as (_ & Hc' & Hi' & _).
  split; [lia | exact Hc'].
Qed.

Lemma balanced_run_witness :
  exists vm' out',
    run [] (VirtualMachine.new test_chunk) = Some (Returned (Ok, vm', out')) /\
    length (stack_ vm') = 0%nat /\
    ip_ vm' = 7%nat /\
    chunk_ vm' = test_chunk.
Proof.
  apply (balanced_run [] (VirtualMachine.new test_chunk) 0).
  - exact test_chunk_resolvable.
  - simpl. lia.
  - reflexivity.
Defined.

End Running.

(** ** Columns *)

Section Columns.
Import Instruction.

Lemma append_length (a b : string) :
  String.length (a +:+ b) = (String.length a + String.length b)%nat.
Proof. induction a as [|c a IH]; simpl; [reflexivity | rewrite IH; reflexivity]. Qed.

Lemma fill_length (c : ascii) (n : nat) : String.length (fill c n) = n.
Proof. induction n as [|n IH]; simpl; [reflexivity | rewrite IH; reflexivity]. Qed.

Lemma align_right_length (c : ascii) (width : nat) (s : string) :
  String.length (align_right c width s) = Nat.max width (String.length s).
Proof. unfold align_right. rewrite append_length, fill_length. lia. Qed.

(** a number below [base ^ k] has at most [k] digits *)
Lemma digits_go_length (fuel : nat) :
  forall (k : nat) (base n : N) (acc : string),
    (2 <= base)%N -> (n < base ^ N.of_nat (S k))%N ->
    (String.length (digits_go fuel base n acc) <= S k + String.length acc)%nat.
Proof.
  induction fuel as [|fuel IH]; intros k base n acc Hbase Hn; simpl; [lia|].
  destruct (N.eqb_spec (n / base) 0) as [Hzero|Hmore]; simpl; [lia|].
  destruct k as [|k].
  - exfalso. apply Hmore. apply N.div_small.
    rewrite N.pow_1_r in Hn. exact Hn.
  - specialize (IH k base (n / base)%N
                  (String (digit (n mod base)) acc) Hbase).
    simpl in IH. rewrite Nat.add_succ_r in IH. apply IH.
    apply N.Div0.div_lt_upper_bound.
    rewrite <- N.pow_succ_r', <- Nat2N.inj_succ. exact Hn.
Qed.

Lemma digits_length (k : nat) (base n : N) :
  (2 <= base)%N -> (n < base ^ N.of_nat (S k))%N ->
  (String.length (digits base n) <= S k)%nat.
Proof.
  intros Hbase Hn. unfold digits.
  pose proof (digits_go_length (S (N.size_nat n)) k base n "" Hbase Hn) as H.
  simpl in H. simpl. lia.
Qed.

(** X25. The columns of a disassembled row.  A field is never cut: its
    length is the larger of the width asked for and the length of the text.
    For an offset below 1,000,000, a line below 100,000 and a 32-bit word
    the first three fields are exactly 6, 5 and 32 characters long, and the
    opcode field is 10 characters long for every opcode that has a name. *)
Theorem field_widths :
  (forall c width text,
     String.length (align_right c width text)
     = Nat.max width (String.length text)) /\
  (forall index : nat,
     Z.of_nat index < 1000000 ->
     String.length (format_zero_dec 6 (Z.of_nat index)) = 6%nat) /\
  (forall line, 0 <= line < 100000 ->
     String.length (format_zero_dec 5 line) = 5%nat) /\
  (forall code, 0 <= code < 2 ^ 32 ->
     String.length (format_zero_bin 32 code) = 32%nat) /\
  (forall opcode name, to_string opcode = Returned name ->
     String.length (align_right " " 10 name) = 10%nat).
Proof.
  split; [exact align_right_length|].
  split; [|split; [|split]].
  - intros index Hindex. unfold format_zero_dec. rewrite align_right_length.
    pose proof (digits_length 5 10 (Z.to_N (Z.of_nat index)) ltac:(lia)) as H.
    rewrite Nat.max_l; [reflexivity|]. apply H.
    change (10 ^ N.of_nat 6)%N with 1000000%N. lia.
  - intros line Hline. unfold format_zero_dec. rewrite align_right_length.
    pose proof (digits_length 4 10 (Z.to_N line) ltac:(lia)) as H.
    rewrite Nat.max_l; [reflexivity|]. apply H.
    change (10 ^ N.of_nat 5)%N with 100000%N. lia.
  - intros code Hcode. unfold format_zero_bin. rewrite align_right_length.
    pose proof (digits_length 31 2 (Z.to_N code) ltac:(lia)) as H.
    rewrite Nat.max_l; [reflexivity|]. apply H.
    change (2 ^ N.of_nat 32)%N with 4294967296%N. lia.
  - intros opcode name Hname. rewrite align_right_length.
    destruct opcode; simpl in Hname; try discriminate;
      injection Hname as <-; reflexivity.
Qed.

(** X26. [to_string] names the seven operations, each with a name of its
    own, and ends in [FAIL] for the sentinel. *)
Theorem to_string_names (opcode : Opcode) :
  (known opcode ->
   exists name,
     to_string opcode = Returned name /\
     forall other, to_string other = Returned name -> other = opcode) /\
  (opcode = _Count -> to_string opcode = Failed "invalid opcode").
Proof.
  split.
  - intros Hknown.
    destruct opcode; try (exfalso; apply Hknown; reflexivity);
      eexists; (split; [reflexivity|]);
      intros other Hother; destruct other; simpl in Hother;
      try discriminate; reflexivity.
  - intros ->. reflexivity.
Qed.

End Columns.
